(** * Vector table and nearest-word query of [example_vector_embeddings]

    A shallow embedding of the three DuckDB tasks of
    [dags/example_vector_embeddings_no_comments.py]:
    [create_vector_table], [insert_words_into_db] and
    [find_closest_word_match], together with the part of DuckDB they drive
    (connections, the [vss] extension, one table with an HNSW index, the
    [INSERT] and the [SELECT ... ORDER BY array_distance(...) LIMIT]
    statements).

    Every task is a computation over an explicit [world] that either
    returns or raises; each [cursor.execute] is one step, committed on its
    own (DuckDB's autocommit), so what a task did before it raised stays
    done.

    Two things are DuckDB's and not the DAG's, and are parameters of the
    development: the arithmetic of [array_distance] ([Floats]), and the
    rows a query answers with, from a scan or from the approximate search
    of the HNSW index ([Search]). *)

From Stdlib Require Import ZArith Lia.
From stdpp Require Import base option list strings gmap sorting.

(** ** Floats and distances

    [vec FLOAT[384]] holds 32-bit floats and [array_distance] is DuckDB's;
    neither the rounding nor the order of its summation is fixed by the
    DAG.  The development only relies on what [ORDER BY] needs: the values
    of [array_distance] are compared by a total preorder (DuckDB orders
    floats totally, NaN last). *)

Class Floats := {
  float : Type;
  distance : Type;
  array_distance : list float → list float → distance;
  distance_le : distance → distance → bool;
  distance_le_total x y : distance_le x y = true ∨ distance_le y x = true;
  distance_le_trans x y z :
    distance_le x y = true → distance_le y z = true → distance_le x z = true
}.

(** A Python [dict] with string keys: its items, in insertion order. *)
Abbreviation dict V := (list (string * V)).

(** ** Rows and their distance from a query vector *)

Section Rows.
Context `{F : Floats}.

(** A row of [(text STRING, vec FLOAT[n])]. *)
Definition row : Type := string * list float.

(** The key of [ORDER BY array_distance(vec, q)]: [r1] is at most as far
    from [q] as [r2]. *)
Definition closer_or_equal (q : list float) (r1 r2 : row) : bool :=
  distance_le (array_distance r1.2 q) (array_distance r2.2 q).

Definition closer (q : list float) : relation row :=
  λ a b, closer_or_equal q a b = true.

(** [nearest] are [k] rows of [rs] at the smallest distances from [q], in
    ascending order of distance. *)
Definition k_nearest (q : list float) (k : nat) (rs nearest : list row) : Prop :=
  length nearest = k ∧
  StronglySorted (closer q) nearest ∧
  ∃ farther, rs ≡ₚ nearest ++ farther ∧
             ∀ a b, a ∈ nearest → b ∈ farther → closer q a b.

(** A sort by distance: the rows are taken in table order and each is put
    before the first row that is strictly farther, so that rows at equal
    distance stay in table order.  This is one order among those a query
    may answer with; it serves for the instance [exact_search] below and
    in proofs, and [run] does not refer to it. *)
Fixpoint insert_row (q : list float) (r : row) (sorted : list row) : list row :=
  match sorted with
  | [] => [r]
  | r' :: rest =>
      if closer_or_equal q r' r then r' :: insert_row q r rest
      else r :: r' :: rest
  end.

Definition order_by_array_distance (q : list float) (rs : list row) : list row :=
  foldl (λ sorted r, insert_row q r sorted) [] rs.

End Rows.

(** ** What DuckDB answers a query with

    [SELECT ... ORDER BY array_distance(vec, q) LIMIT k] is answered in
    one of two ways, and the DAG fixes neither.

    Without an HNSW index on the table the rows are scanned and sorted:
    the answer is [k] rows at the smallest distances (all rows when the
    table has fewer), in ascending order of distance.  The distance is
    the only key of the [ORDER BY], so the order among rows at the same
    distance, and which of them are among the first [k], is DuckDB's.

    With an HNSW index on [vec] and [vss] loaded, the sort is replaced by
    a search of the index.  That search is approximate: it answers with
    [k] rows of the table (all rows when the table has fewer), in
    ascending order of distance, and these need not be the nearest.  The
    graph that is searched grows as rows are inserted, so the answer is a
    function of the rows in table order, not of the rows as a set. *)

Class Search `{F : Floats} := {
  sorted_scan : list float → nat → list row → list row;
  hnsw_index_scan : list float → nat → list row → list row;
  sorted_scan_nearest q k rs :
    k_nearest q (k `min` length rs) rs (sorted_scan q k rs);
  hnsw_index_scan_rows q k rs : hnsw_index_scan q k rs ⊆+ rs;
  hnsw_index_scan_length q k rs :
    length (hnsw_index_scan q k rs) = k `min` length rs;
  hnsw_index_scan_sorted q k rs :
    StronglySorted (closer q) (hnsw_index_scan q k rs)
}.

(** ** The database *)

Section Model.
Context `{F : Floats} `{!Search}.

(** A table created by [CREATE TABLE t (text STRING, vec FLOAT[vec_dim])],
    its rows in insertion order. *)
Record table := Table { vec_dim : nat; rows : list row }.

(** The catalog of one database: tables by name, and for every index name
    the table that owns it. *)
Record database := Database {
  tables : gmap string table;
  indexes : gmap string string
}.

Definition empty_database : database := Database ∅ ∅.

(** What [duckdb.connect] returns.  Loaded extensions and settings belong to
    the connection; an in-memory database lives in its connection. *)
Record connection := Connection {
  conn_database : string;
  conn_open : bool;
  vss_loaded : bool;
  hnsw_persistence : bool;
  conn_memory : database
}.

(** The machine the tasks run on: whether the [vss] extension is installed,
    whether it can be downloaded, the database files by path, and every
    connection made so far (a cursor is its position in [conns]). *)
Record world := World {
  vss_installed : bool;
  vss_downloadable : bool;
  files : gmap string database;
  conns : list connection
}.

Inductive exn :=
  | IOException          (* the extension can be neither found nor fetched *)
  | CatalogException     (* unknown table or setting, index name taken *)
  | BinderException      (* unknown index type, persistence off, array sizes differ *)
  | MissingExtensionException (* table with an HNSW index modified without vss *)
  | ConversionException  (* a list of the wrong length cast to FLOAT[n] *)
  | ConnectionException  (* the connection is closed *)
  | IndexError
  | KeyError
  | TypeError
  | AttributeError.

Inductive outcome (A : Type) :=
  | Returned (a : A) (w : world)
  | Raised (e : exn) (w : world).
Global Arguments Returned {A} a w.
Global Arguments Raised {A} e w.

Definition final_world {A} (o : outcome A) : world :=
  match o with Returned _ w | Raised _ w => w end.

(** What the caller of a task sees: the value or the exception. *)
Definition result {A} (o : outcome A) : exn + A :=
  match o with Returned a _ => inr a | Raised e _ => inl e end.

(** ** Tasks: state and exceptions *)

Definition task (A : Type) : Type := world → outcome A.

Definition ret {A} (a : A) : task A := λ w, Returned a w.
Definition raise {A} (e : exn) : task A := λ w, Raised e w.
Definition bind {A B} (m : task A) (k : A → task B) : task B :=
  λ w, match m w with
       | Returned a w' => k a w'
       | Raised e w' => Raised e w'
       end.

Global Instance task_ret : MRet task := @ret.
Global Instance task_bind : MBind task := λ A B k m, bind m k.

(** [for x in l: body] *)
Fixpoint for_each {A} (l : list A) (body : A → task unit) : task unit :=
  match l with
  | [] => ret ()
  | x :: l' => body x ;; for_each l' body
  end.

(** ** Python dictionaries and lists *)

Definition keys {V} (d : dict V) : list string := d.*1.

(** [l[i]] *)
Definition getitem_list {A} (l : list A) (i : nat) : task A :=
  match l !! i with
  | Some x => ret x
  | None => raise IndexError
  end.

(** [d[k]] *)
Fixpoint dict_get {V} (d : dict V) (k : string) : option V :=
  match d with
  | [] => None
  | (k', v) :: d' => if String.eqb k' k then Some v else dict_get d' k
  end.

Definition getitem_dict {V} (d : dict V) (k : string) : task V :=
  match dict_get d k with
  | Some v => ret v
  | None => raise KeyError
  end.

(** ** DuckDB *)

Definition in_memory (path : string) : bool :=
  String.eqb path ":memory:".

(** The database a new connection to [path] finds. *)
Definition stored (w : world) (path : string) : database :=
  if in_memory path then empty_database
  else default empty_database (files w !! path).

Definition set_conns (cs : list connection) (w : world) : world :=
  World (vss_installed w) (vss_downloadable w) (files w) cs.

Definition set_files (fs : gmap string database) (w : world) : world :=
  World (vss_installed w) (vss_downloadable w) fs (conns w).

Definition set_vss_installed (b : bool) (w : world) : world :=
  World b (vss_downloadable w) (files w) (conns w).

Definition set_conn_open (b : bool) (c : connection) : connection :=
  Connection (conn_database c) b (vss_loaded c) (hnsw_persistence c)
    (conn_memory c).

Definition set_vss_loaded (b : bool) (c : connection) : connection :=
  Connection (conn_database c) (conn_open c) b (hnsw_persistence c)
    (conn_memory c).

Definition set_hnsw_persistence (b : bool) (c : connection) : connection :=
  Connection (conn_database c) (conn_open c) (vss_loaded c) b
    (conn_memory c).

Definition set_conn_memory (db : database) (c : connection) : connection :=
  Connection (conn_database c) (conn_open c) (vss_loaded c)
    (hnsw_persistence c) db.

(** [duckdb.connect(path)] *)
Definition connect (path : string) : task nat := λ w,
  Returned (length (conns w))
    (set_conns (conns w ++ [Connection path true false false
                              empty_database]) w).

(** The database behind a connection, and its replacement by a committed
    statement. *)
Definition db_of (w : world) (c : connection) : database :=
  if in_memory (conn_database c) then conn_memory c
  else default empty_database (files w !! conn_database c).

Definition commit (cursor : nat) (c : connection) (db : database)
    (w : world) : world :=
  if in_memory (conn_database c)
  then set_conns (<[cursor := set_conn_memory db c]> (conns w)) w
  else set_files (<[conn_database c := db]> (files w)) w.

(** The values of a result row, and the columns a [SELECT] can list. *)
Inductive value :=
  | VText (s : string)
  | VArray (v : list float)
  | VDistance (d : distance).

Inductive column :=
  | Col_text
  | Col_vec
  | Col_array_distance (q : list float).

(** The statements of the DAG.  A table or index name is the identifier
    DuckDB resolves the spliced text to: the DAG's own names are plain
    lower-case identifiers, which stand for themselves.  What DuckDB makes
    of another spelling of a name (upper case, a schema prefix, quotes) is
    not modelled. *)
Inductive statement :=
  | INSTALL_vss
  | LOAD_vss
  | SET_hnsw_enable_experimental_persistence (b : bool)
  | CREATE_OR_REPLACE_TABLE (t : string) (dim : nat)
  | CREATE_INDEX_USING_HNSW (idx t : string)
  | INSERT_INTO (t : string) (text : string) (vec : list float)
  | SELECT_ORDER_BY_array_distance
      (cols : list column) (t : string) (q : list float) (dim : nat)
      (limit : nat).

Definition eval_column (r : row) (c : column) : value :=
  match c with
  | Col_text => VText r.1
  | Col_vec => VArray r.2
  | Col_array_distance q => VDistance (array_distance r.2 q)
  end.

Definition project (cols : list column) (r : row) : list value :=
  eval_column r <$> cols.

(** Does some index belong to table [t]? *)
Definition has_index (db : database) (t : string) : bool :=
  bool_decide (Exists (λ it, it.2 = t) (map_to_list (indexes db))).

(** The rows [ORDER BY array_distance(vec, q) LIMIT limit] answers with,
    from the index when the table has one and the connection can use
    it, and from a scan otherwise. *)
Definition select_rows (indexed : bool) (q : list float) (limit : nat)
    (rs : list row) : list row :=
  if indexed then hnsw_index_scan q limit rs else sorted_scan q limit rs.

(** One statement on an open connection [c] at position [cursor]. *)
Definition run (cursor : nat) (c : connection) (s : statement)
    : task (list (list value)) := λ w,
  let db := db_of w c in
  match s with
  | INSTALL_vss =>
      if vss_installed w then Returned [] w
      else if vss_downloadable w then Returned [] (set_vss_installed true w)
      else Raised IOException w
  | LOAD_vss =>
      if vss_installed w
      then Returned [] (set_conns (<[cursor := set_vss_loaded true c]> (conns w)) w)
      else Raised IOException w
  | SET_hnsw_enable_experimental_persistence b =>
      if vss_loaded c
      then Returned []
             (set_conns (<[cursor := set_hnsw_persistence b c]> (conns w)) w)
      else Raised CatalogException w
  | CREATE_OR_REPLACE_TABLE t dim =>
      Returned []
        (commit cursor c
           (Database (<[t := Table dim []]> (tables db))
                     (filter (λ it, it.2 ≠ t) (indexes db))) w)
  | CREATE_INDEX_USING_HNSW idx t =>
      if negb (vss_loaded c) then Raised BinderException w
      else match tables db !! t with
      | None => Raised CatalogException w
      | Some _ =>
          match indexes db !! idx with
          | Some _ => Raised CatalogException w
          | None =>
              if negb (in_memory (conn_database c) || hnsw_persistence c)
              then Raised BinderException w
              else Returned []
                     (commit cursor c
                        (Database (tables db) (<[idx := t]> (indexes db))) w)
          end
      end
  | INSERT_INTO t text vec =>
      match tables db !! t with
      | None => Raised CatalogException w
      | Some tb =>
          if has_index db t && negb (vss_loaded c)
          then Raised MissingExtensionException w
          else if negb (Nat.eqb (length vec) (vec_dim tb))
          then Raised ConversionException w
          else Returned []
                 (commit cursor c
                    (Database
                       (<[t := Table (vec_dim tb) (rows tb ++ [(text, vec)])]>
                          (tables db))
                       (indexes db)) w)
      end
  | SELECT_ORDER_BY_array_distance cols t q dim limit =>
      match tables db !! t with
      | None => Raised CatalogException w
      | Some tb =>
          if negb (Nat.eqb (vec_dim tb) dim) then Raised BinderException w
          else if negb (Nat.eqb (length q) dim) then Raised ConversionException w
          else Returned
                 (project cols <$>
                    select_rows (has_index db t && vss_loaded c) q limit
                      (rows tb)) w
      end
  end.

(** [cursor.execute(statement)], followed by [fetchall()] where the DAG
    reads the result. *)
Definition execute (cursor : nat) (s : statement) : task (list (list value)) :=
  λ w, match conns w !! cursor with
       | Some c => if conn_open c then run cursor c s w
                   else Raised ConnectionException w
       | None => Raised ConnectionException w
       end.

(** [cursor.execute] of a text with several statements: one after the
    other, the result of the last. *)
Fixpoint execute_script (cursor : nat) (ss : list statement)
    : task (list (list value)) :=
  match ss with
  | [] => ret []
  | [s] => execute cursor s
  | s :: ss' => execute cursor s ;; execute_script cursor ss'
  end.

(** [cursor.close()] *)
Definition close (cursor : nat) : task unit := λ w,
  match conns w !! cursor with
  | Some c => Returned () (set_conns (<[cursor := set_conn_open false c]> (conns w)) w)
  | None => Raised ConnectionException w
  end.

(** ** The tasks of the DAG *)

Definition create_vector_table (duckdb_instance_name table_name : string)
    : task unit :=
  cursor ← connect duckdb_instance_name;
  execute cursor INSTALL_vss ;;
  execute cursor LOAD_vss ;;
  execute cursor (SET_hnsw_enable_experimental_persistence true) ;;
  let table_name : string := "embeddings_table" in
  execute_script cursor
    [ CREATE_OR_REPLACE_TABLE table_name 384;
      CREATE_INDEX_USING_HNSW "my_hnsw_index" table_name ] ;;
  close cursor.

Definition insert_words_into_db (duckdb_instance_name table_name : string)
    (list_of_words_and_embeddings : option (list (dict (list float))))
    : task unit :=
  cursor ← connect duckdb_instance_name;
  execute cursor INSTALL_vss ;;
  execute cursor LOAD_vss ;;
  match list_of_words_and_embeddings with
  | None => raise TypeError
  | Some l =>
      for_each l (λ i,
        word ← getitem_list (keys i) 0;
        vec ← getitem_dict i word;
        execute cursor (INSERT_INTO table_name word vec) ;;
        ret ())
  end ;;
  close cursor.

Definition find_closest_word_match (duckdb_instance_name table_name : string)
    (word_of_interest_embedding : option (dict (list float)))
    : task (list (list value)) :=
  cursor ← connect duckdb_instance_name;
  execute cursor LOAD_vss ;;
  match word_of_interest_embedding with
  | None => raise AttributeError
  | Some d =>
      word ← getitem_list (keys d) 0;
      vec ← getitem_dict d word;
      top_3 ← execute cursor
        (SELECT_ORDER_BY_array_distance [Col_text] table_name vec 384 3);
      ret top_3
  end.

End Model.

(** ** The tasks that prepare the words, and the DAG

    [get_embeddings_one_word] is defined in
    [include/custom_functions/embedding_func.py], which is not among the
    sources: it is a parameter here.  It is called with a word and gives
    a dict, from which [embed_word] reads the embeddings under the word;
    it may raise, and it does not touch the databases. *)

(** A value of the run's [params]: a string or an array of strings (the
    two types the DAG declares). *)
Inductive param :=
  | Param_string (s : string)
  | Param_array (l : list string).

(** [os.getenv(name, default)] *)
Definition getenv (env : gmap string string) (name default : string) : string :=
  match env !! name with
  | Some v => v
  | None => default
  end.

Definition _DUCKDB_INSTANCE_NAME (env : gmap string string) : string :=
  getenv env "DUCKDB_INSTANCE_NAME" "include/astronomy.db".

Definition _DUCKDB_TABLE_NAME (env : gmap string string) : string :=
  getenv env "DUCKDB_TABLE_NAME" "embeddings_table".

Definition _WORD_OF_INTEREST_PARAMETER_NAME (env : gmap string string) : string :=
  getenv env "WORD_OF_INTEREST_PARAMETER_NAME" "my_word_of_interest".

Definition _WORD_OF_INTEREST_DEFAULT (env : gmap string string) : string :=
  getenv env "WORD_OF_INTEREST_DEFAULT" "star".

Definition _LIST_OF_WORDS_PARAMETER_NAME (env : gmap string string) : string :=
  getenv env "LIST_OF_WORDS_PARAMETER_NAME" "my_list_of_words".

Definition _LIST_OF_WORDS_DEFAULT : list string :=
  ["sun"; "rocket"; "planet"; "light"; "happiness"].

(** What became of a task in a run of the DAG. *)
Inductive task_state (A : Type) :=
  | success (a : A)
  | failed (e : exn)
  | upstream_failed.
Global Arguments success {A} a.
Global Arguments failed {A} e.
Global Arguments upstream_failed {A}.

Section Embeddings.
Context `{F : Floats} `{!Search}.
Variable get_embeddings_one_word : string → exn + dict (list float).

(** A call of a function that returns or raises and leaves the world as
    it is. *)
Definition call {A} (r : exn + A) : task A :=
  match r with
  | inl e => raise e
  | inr a => ret a
  end.

(** [for x in l: body], with the local variable the body updates. *)
Fixpoint for_each_from {A S} (l : list A) (body : S → A → task S) (s : S)
    : task S :=
  match l with
  | [] => ret s
  | x :: l' => s' ← body s x; for_each_from l' body s'
  end.

(** What [for word in p] goes through: the items of an array, the
    characters of a string. *)
Definition iterate (p : param) : list string :=
  match p with
  | Param_array l => l
  | Param_string s => (λ c, String c EmptyString) <$> String.list_ascii_of_string s
  end.

Definition get_words (env : gmap string string)
    (context : dict (dict param)) : task param :=
  params ← getitem_dict context "params";
  words ← getitem_dict params (_LIST_OF_WORDS_PARAMETER_NAME env);
  ret words.

Definition create_embeddings (list_of_words : param)
    : task (list (dict (list float))) :=
  let list_of_words_and_embeddings := [] in
  list_of_words_and_embeddings ←
    for_each_from (iterate list_of_words)
      (λ list_of_words_and_embeddings word,
         word_and_embeddings ← call (get_embeddings_one_word word);
         ret (list_of_words_and_embeddings ++ [word_and_embeddings]))
      list_of_words_and_embeddings;
  ret list_of_words_and_embeddings.

(** A list is no key of a dict: with an array for the word of interest
    the task ends in a [TypeError]. *)
Definition embed_word (env : gmap string string)
    (context : dict (dict param)) : task (dict (list float)) :=
  params ← getitem_dict context "params";
  my_word_of_interest ←
    getitem_dict params (_WORD_OF_INTEREST_PARAMETER_NAME env);
  match my_word_of_interest with
  | Param_array _ => raise TypeError
  | Param_string my_word_of_interest =>
      embeddings ← call (get_embeddings_one_word my_word_of_interest);
      embeddings ← getitem_dict embeddings my_word_of_interest;
      ret [(my_word_of_interest, embeddings)]
  end.

(** A task instance with [retries]: it is run again, in the world the
    failed try left, until it returns or the retries are used up. *)
Fixpoint with_retries {A} (retries : nat) (t : task A) : task A :=
  λ w, match t w with
       | Returned a w' => Returned a w'
       | Raised e w' =>
           match retries with
           | 0 => Raised e w'
           | S n => with_retries n t w'
           end
       end.

(** One task of a run: its state, and the world it leaves. *)
Definition run_task {A} (retries : nat) (t : task A) (w : world)
    : task_state A * world :=
  match with_retries retries t w with
  | Returned a w' => (success a, w')
  | Raised e w' => (failed e, w')
  end.

(** A task downstream of [up]: it runs when [up] succeeded. *)
Definition downstream {A B} (up : task_state A)
    (k : A → world → task_state B * world) (w : world)
    : task_state B * world :=
  match up with
  | success a => k a w
  | _ => (upstream_failed, w)
  end.

Record dag_run := DagRun {
  get_words_state : task_state param;
  create_embeddings_state : task_state (list (dict (list float)));
  embed_word_state : task_state (dict (list float));
  create_vector_table_state : task_state unit;
  insert_words_into_db_state : task_state unit;
  find_closest_word_match_state : task_state (list (list value))
}.

(** A run of the DAG: [create_embeddings] takes the words of [get_words],
    and [chain] puts [create_vector_table], [insert_words_into_db] and
    [find_closest_word_match] one after the other, the last two fed by
    [create_embeddings] and [embed_word].  Every task has the three
    retries of [default_args], [get_words] two; one task runs at a
    time. *)
Definition example_vector_embeddings (env : gmap string string)
    (context : dict (dict param)) (w : world) : dag_run * world :=
  let '(get_words_obj, w) := run_task 2 (get_words env context) w in
  let '(create_embeddings_obj, w) :=
    downstream get_words_obj
      (λ words, run_task 3 (create_embeddings words)) w in
  let '(embed_word_obj, w) := run_task 3 (embed_word env context) w in
  let '(create_vector_table_obj, w) :=
    run_task 3 (create_vector_table (_DUCKDB_INSTANCE_NAME env)
                  (_DUCKDB_TABLE_NAME env)) w in
  let '(insert_words_into_db_obj, w) :=
    downstream create_vector_table_obj (λ _,
      downstream create_embeddings_obj (λ list_of_words_and_embeddings,
        run_task 3
          (insert_words_into_db (_DUCKDB_INSTANCE_NAME env)
             (_DUCKDB_TABLE_NAME env)
             (Some list_of_words_and_embeddings)))) w in
  let '(find_closest_word_match_obj, w) :=
    downstream insert_words_into_db_obj (λ _,
      downstream embed_word_obj (λ word_of_interest_embedding,
        run_task 3
          (find_closest_word_match (_DUCKDB_INSTANCE_NAME env)
             (_DUCKDB_TABLE_NAME env)
             (Some word_of_interest_embedding)))) w in
  (DagRun get_words_obj create_embeddings_obj embed_word_obj
     create_vector_table_obj insert_words_into_db_obj
     find_closest_word_match_obj, w).

End Embeddings.

(** ** What the statements below observe *)

Section Observations.
Context `{F : Floats} `{!Search}.

(** The text column of rows: what [SELECT text] returns for them. *)
Definition texts (rs : list row) : list (list value) :=
  (λ r, [VText r.1]) <$> rs.

(** The table a task finds under [t] when it connects to [path]. *)
Definition table_at (w : world) (path t : string) : option table :=
  tables (stored w path) !! t.

(** Can [INSTALL vss] succeed? *)
Definition vss_available (w : world) : bool :=
  vss_installed w || vss_downloadable w.

(** The exception a record of the batch raises in the loop of
    [insert_words_into_db], on a table of [FLOAT[dim]]: a record without a
    key has no [list(i.keys())[0]], and a vector of another length does
    not cast to [FLOAT[dim]]. *)
Definition record_error (dim : nat) (i : dict (list float)) : option exn :=
  match i with
  | [] => Some IndexError
  | (_, vec) :: _ =>
      if Nat.eqb (length vec) dim then None else Some ConversionException
  end.

(** The rows of a batch: the first item of every record. *)
Definition rows_of (batch : list (dict (list float))) : list row :=
  omap head batch.

(** A world whose file [inst] holds table [tn] with rows [rs], seen from
    the last connection, which is open with [vss] loaded. *)
Definition loaded (inst tn : string) (i d : bool) (fs : gmap string database)
    (cs : list connection) (p : bool) (tbs : gmap string table)
    (idx : gmap string string) (dim : nat) (rs : list row) : world :=
  World i d
    (<[inst := Database (<[tn := Table dim rs]> tbs) idx]> fs)
    (cs ++ [Connection inst true true p empty_database]).

(** [keeps I m]: whatever a run of [m] does from a world in [I], and
    however it ends, the world it leaves is in [I]. *)
Definition keeps (I : world → Prop) {A} (m : task A) : Prop :=
  ∀ w, I w → I (final_world (m w)).

(** The connections are [cs] followed by one more, which is open. *)
Definition last_open (cs : list connection) (w : world) : Prop :=
  ∃ c, conns w = cs ++ [c] ∧ conn_open c = true.

(** [m] leaves the last connection closed when it returns and open when it
    raises, and touches no other. *)
Definition closes_on_return_only (cs : list connection) {A} (m : task A) : Prop :=
  ∀ w, last_open cs w →
    ∃ c, conns (final_world (m w)) = cs ++ [c] ∧
         conn_open c = match m w with
                       | Returned _ _ => false
                       | Raised _ _ => true
                       end.

(** The index name of the DAG, when taken in [db], belongs to the table of
    the DAG. *)
Definition index_of_embeddings (db : database) : Prop :=
  ∀ t, indexes db !! "my_hnsw_index" = Some t → t = "embeddings_table".

(** The worlds the DAG works in: [INSTALL vss] can succeed, and in no
    database does another table own [my_hnsw_index]. *)
Definition dag_world (w : world) : Prop :=
  vss_available w = true ∧
  map_Forall (λ _ db, index_of_embeddings db) (files w) ∧
  Forall (λ c, index_of_embeddings (conn_memory c)) (conns w).

(** The statements of the DAG: the only index they create under the name
    [my_hnsw_index] is on [embeddings_table]. *)
Definition dag_statement (s : statement) : Prop :=
  match s with
  | CREATE_INDEX_USING_HNSW idx t =>
      idx = "my_hnsw_index" → t = "embeddings_table"
  | _ => True
  end.

(** [m] takes every world in [J] to a world in [Q], however it ends. *)
Definition leads (J Q : world → Prop) {A} (m : task A) : Prop :=
  ∀ w, J w → Q (final_world (m w)).

(** The connections are [cs] followed by an open one to [inst], and the
    database file [path] is [v]. *)
Definition working_on (cs : list connection) (inst path : string)
    (v : option database) (w : world) : Prop :=
  (∃ c, conns w = cs ++ [c] ∧ conn_open c = true ∧ conn_database c = inst) ∧
  files w !! path = v.

(** [t] leaves the world as it found it, however it ends. *)
Definition leaves_world {A} (t : task A) : Prop :=
  ∀ w, final_world (t w) = w.

(** The inputs of a run that every task can work with: [params] has the
    list of words and a string for the word of interest, the embedding of
    every word of the list returns a record, these records are [batch]
    and none is at fault for a column of [FLOAT[384]], and the embedding
    of the word of interest has the word with a vector [q] of length
    384. *)
Definition good_inputs (get_embeddings_one_word : string → exn + dict (list float))
    (env : gmap string string) (context : dict (dict param))
    (words : param) (batch : list (dict (list float)))
    (word : string) (q : list float) : Prop :=
  (∃ params,
     dict_get context "params" = Some params ∧
     dict_get params (_LIST_OF_WORDS_PARAMETER_NAME env) = Some words ∧
     dict_get params (_WORD_OF_INTEREST_PARAMETER_NAME env)
       = Some (Param_string word)) ∧
  Forall2 (λ w rec, get_embeddings_one_word w = inr rec) (iterate words) batch ∧
  Forall (λ rec, record_error 384 rec = None) batch ∧
  (∃ d, get_embeddings_one_word word = inr d ∧ dict_get d word = Some q) ∧
  length q = 384.

End Observations.

(** ** An instance: exact arithmetic on integer-valued vectors

    Components are integers (every integer of small magnitude is a float),
    and the Euclidean distance is represented by its square, which orders
    as the distance does. *)

Module Exact.

Definition squared_distance (v q : list Z) : Z :=
  foldr Z.add 0%Z (zip_with (λ a b, ((a - b) * (a - b))%Z) v q).

Lemma leb_total (x y : Z) : (x <=? y)%Z = true ∨ (y <=? x)%Z = true.
Proof. rewrite !Z.leb_le. lia. Qed.

Lemma leb_trans (x y z : Z) :
  (x <=? y)%Z = true → (y <=? z)%Z = true → (x <=? z)%Z = true.
Proof. rewrite !Z.leb_le. lia. Qed.

#[export] Instance exact_floats : Floats := {|
  float := Z;
  distance := Z;
  array_distance := squared_distance;
  distance_le := Z.leb;
  distance_le_total := leb_total;
  distance_le_trans := leb_trans
|}.

(** A vector of [FLOAT[384]] from its leading components. *)
Definition padded (leading : list Z) : list float :=
  leading ++ replicate (384 - length leading) 0%Z.

(** A machine with [vss] installed and one database file holding
    [embeddings_table] with the given rows and its HNSW index. *)
Definition machine (rs : list row) : world :=
  World true true
    {[ "include/astronomy.db" :=
         Database {[ "embeddings_table" := Table 384 rs ]}
                  {[ "my_hnsw_index" := "embeddings_table" ]} ]}
    [].

Definition sun_rocket_planet_light : list row :=
  [ ("sun", padded [10; 0; 0]%Z);
    ("rocket", padded [0; 10; 0]%Z);
    ("planet", padded [9; 1; 0]%Z);
    ("light", padded [5; 5; 5]%Z) ].

(** The database file of the DAG, and the query for the vector of "sun". *)
Definition astronomy_db : string := "include/astronomy.db".

Definition star : dict (list float) := [("star", padded [10; 0; 0]%Z)].

(** Two records of a batch, and one whose vector has three components. *)
Definition sun : dict (list float) := [("sun", padded [10; 0; 0]%Z)].
Definition rocket : dict (list float) := [("rocket", padded [0; 10; 0]%Z)].
Definition short : dict (list float) := [("short", [1; 2; 3]%Z)].


(** An embedding of the words of the DAG, and of "star"; the embedding of
    any other word raises. *)
Definition vocabulary : dict (list float) :=
  [ ("sun", padded [10; 0; 0]%Z);
    ("rocket", padded [0; 10; 0]%Z);
    ("planet", padded [9; 1; 0]%Z);
    ("light", padded [5; 5; 5]%Z);
    ("happiness", padded [0; 0; 7]%Z);
    ("star", padded [10; 0; 0]%Z) ].

Definition embed (word : string) : exn + dict (list float) :=
  match dict_get vocabulary word with
  | Some vec => inr [(word, vec)]
  | None => inl IOException
  end.

(** The context of a run with the default [params], and of one whose list
    holds a word without embedding. *)
Definition default_context : dict (dict param) :=
  [ ("params",
     [ ("my_word_of_interest", Param_string "star");
       ("my_list_of_words", Param_array _LIST_OF_WORDS_DEFAULT) ]) ].

Definition moon_context : dict (dict param) :=
  [ ("params",
     [ ("my_word_of_interest", Param_string "star");
       ("my_list_of_words", Param_array ["sun"; "moon"; "rocket"]) ]) ].

(** The records [embed] gives for the default list. *)
Definition default_batch : list (dict (list float)) :=
  [ [("sun", padded [10; 0; 0]%Z)];
    [("rocket", padded [0; 10; 0]%Z)];
    [("planet", padded [9; 1; 0]%Z)];
    [("light", padded [5; 5; 5]%Z)];
    [("happiness", padded [0; 0; 7]%Z)] ].

End Exact.

(** * Properties *)

(** ** A stable sort by distance *)

Section Order.
Context `{F : Floats}.
Variable q : list float.

Lemma closer_total a b : closer q a b ∨ closer q b a.
Proof. apply distance_le_total. Qed.

Lemma closer_trans a b c : closer q a b → closer q b c → closer q a c.
Proof. apply distance_le_trans. Qed.

Lemma not_closer a b : closer_or_equal q a b = false → closer q b a.
Proof.
  intros Hab. destruct (closer_total a b) as [H|H]; [|done].
  unfold closer in H. congruence.
Qed.

Lemma insert_row_perm r sorted : insert_row q r sorted ≡ₚ r :: sorted.
Proof.
  induction sorted as [|r' rest IH]; simpl; [done|].
  destruct (closer_or_equal q r' r); [|done].
  rewrite IH. apply Permutation_swap.
Qed.

Lemma insert_row_sorted r sorted :
  StronglySorted (closer q) sorted → StronglySorted (closer q) (insert_row q r sorted).
Proof.
  induction 1 as [|r' rest Hrest IH Hr']; simpl.
  - repeat constructor.
  - destruct (closer_or_equal q r' r) eqn:E.
    + constructor; [done|].
      rewrite insert_row_perm. by constructor.
    + apply not_closer in E.
      constructor; [by constructor|].
      constructor; [done|].
      eapply Forall_impl; [exact Hr'|].
      intros x Hx. by eapply closer_trans.
Qed.

Lemma foldl_insert_row_perm acc rs :
  foldl (λ sorted r, insert_row q r sorted) acc rs ≡ₚ acc ++ rs.
Proof.
  revert acc. induction rs as [|r rs IH]; intros acc; simpl.
  - by rewrite app_nil_r.
  - rewrite IH, insert_row_perm. simpl. apply Permutation_middle.
Qed.

Lemma foldl_insert_row_sorted acc rs :
  StronglySorted (closer q) acc →
  StronglySorted (closer q) (foldl (λ sorted r, insert_row q r sorted) acc rs).
Proof.
  revert acc. induction rs as [|r rs IH]; intros acc Hacc; simpl; [done|].
  by apply IH, insert_row_sorted.
Qed.

Lemma order_by_perm rs : order_by_array_distance q rs ≡ₚ rs.
Proof. apply (foldl_insert_row_perm []). Qed.

Lemma order_by_sorted rs : StronglySorted (closer q) (order_by_array_distance q rs).
Proof. apply foldl_insert_row_sorted. constructor. Qed.

End Order.

(** ** The answers of a query *)

Section Answers.
Context `{F : Floats} `{!Search}.

Lemma k_nearest_submseteq q k rs nearest :
  k_nearest q k rs nearest → nearest ⊆+ rs.
Proof.
  intros (_ & _ & farther & Hperm & _). rewrite Hperm.
  by apply submseteq_inserts_r.
Qed.

(** As many rows as the table has, taken from the table, in ascending
    order: these are all its rows, so none is nearer. *)
Lemma all_rows_k_nearest q rs found :
  found ⊆+ rs →
  length found = length rs →
  StronglySorted (closer q) found →
  k_nearest q (length rs) rs found.
Proof.
  intros Hsub Hlen Hsorted. split; [done|]. split; [done|].
  exists []. split.
  - rewrite app_nil_r. symmetry. apply submseteq_length_Permutation; [done|lia].
  - intros a b _ Hb. by apply elem_of_nil in Hb.
Qed.

Lemma select_rows_length indexed q k rs :
  length (select_rows indexed q k rs) = k `min` length rs.
Proof.
  destruct indexed; [apply hnsw_index_scan_length|apply sorted_scan_nearest].
Qed.

Lemma select_rows_submseteq indexed q k rs : select_rows indexed q k rs ⊆+ rs.
Proof.
  destruct indexed; [apply hnsw_index_scan_rows|].
  eapply k_nearest_submseteq, sorted_scan_nearest.
Qed.

Lemma select_rows_sorted indexed q k rs :
  StronglySorted (closer q) (select_rows indexed q k rs).
Proof.
  destruct indexed; [apply hnsw_index_scan_sorted|apply sorted_scan_nearest].
Qed.

Lemma select_rows_nil indexed q k : select_rows indexed q k [] = [].
Proof.
  apply nil_length_inv. rewrite select_rows_length. apply Nat.min_0_r.
Qed.

(** The answer is the nearest rows when it comes from a scan, and when the
    table has no more rows than are asked for. *)
Lemma select_rows_nearest indexed q k rs :
  indexed = false ∨ length rs ≤ k →
  k_nearest q (k `min` length rs) rs (select_rows indexed q k rs).
Proof.
  intros [->|Hle]; [apply sorted_scan_nearest|].
  rewrite Nat.min_r by done. apply all_rows_k_nearest.
  - apply select_rows_submseteq.
  - rewrite select_rows_length. by apply Nat.min_r.
  - apply select_rows_sorted.
Qed.


End Answers.

(** ** The sort as an answer

    The sort, cut after [k] rows, answers as a scan does; it also answers
    as a search of the index may, one that misses no row. *)

Section Exact_search.
Context `{F : Floats}.

Lemma take_order_by_k_nearest q k rs :
  k_nearest q (k `min` length rs) rs (take k (order_by_array_distance q rs)).
Proof.
  pose proof (order_by_sorted q rs) as Hsorted.
  pose proof (order_by_perm q rs) as Hperm.
  rewrite <- (take_drop k (order_by_array_distance q rs)) in Hsorted.
  apply StronglySorted_app in Hsorted as (Hfar & Hnear & _).
  split; [|split; [done|]].
  - by rewrite length_take, (Permutation_length Hperm).
  - exists (drop k (order_by_array_distance q rs)).
    by rewrite take_drop.
Qed.

Lemma take_order_by_rows q k rs : take k (order_by_array_distance q rs) ⊆+ rs.
Proof. eapply k_nearest_submseteq, take_order_by_k_nearest. Qed.

Lemma take_order_by_length q k rs :
  length (take k (order_by_array_distance q rs)) = k `min` length rs.
Proof. apply take_order_by_k_nearest. Qed.

Lemma take_order_by_sorted q k rs :
  StronglySorted (closer q) (take k (order_by_array_distance q rs)).
Proof. apply take_order_by_k_nearest. Qed.

Definition exact_search : Search := {|
  sorted_scan q k rs := take k (order_by_array_distance q rs);
  hnsw_index_scan q k rs := take k (order_by_array_distance q rs);
  sorted_scan_nearest := take_order_by_k_nearest;
  hnsw_index_scan_rows := take_order_by_rows;
  hnsw_index_scan_length := take_order_by_length;
  hnsw_index_scan_sorted := take_order_by_sorted
|}.

(** An index may also miss rows.  The search that looks at the first [k]
    rows of the table only, and sorts them, keeps every law of [Search]. *)
Lemma order_by_take_rows q k rs : order_by_array_distance q (take k rs) ⊆+ rs.
Proof. rewrite order_by_perm. apply submseteq_take. Qed.

Lemma order_by_take_length q k rs :
  length (order_by_array_distance q (take k rs)) = k `min` length rs.
Proof. by rewrite (Permutation_length (order_by_perm q _)), length_take. Qed.

Lemma order_by_take_sorted q k rs :
  StronglySorted (closer q) (order_by_array_distance q (take k rs)).
Proof. apply order_by_sorted. Qed.

Definition first_rows_search : Search := {|
  sorted_scan q k rs := take k (order_by_array_distance q rs);
  hnsw_index_scan q k rs := order_by_array_distance q (take k rs);
  sorted_scan_nearest := take_order_by_k_nearest;
  hnsw_index_scan_rows := order_by_take_rows;
  hnsw_index_scan_length := order_by_take_length;
  hnsw_index_scan_sorted := order_by_take_sorted
|}.

End Exact_search.

(** ** Running the tasks *)

Section Tasks.
Context `{F : Floats} `{!Search}.

Lemma lookup_snoc {A} (cs : list A) c : (cs ++ [c]) !! length cs = Some c.
Proof. by apply list_lookup_middle. Qed.

Lemma insert_snoc {A} (cs : list A) c c' :
  <[length cs := c']> (cs ++ [c]) = cs ++ [c'].
Proof. rewrite insert_app_r_alt by lia. by rewrite Nat.sub_diag. Qed.

(** What [find_closest_word_match] gives its caller, in every world. *)
Lemma find_closest_word_match_result inst tn emb w :
  result (find_closest_word_match inst tn emb w) =
  if vss_installed w then
    match emb with
    | None => inl AttributeError
    | Some [] => inl IndexError
    | Some ((word, vec) :: _) =>
        match table_at w inst tn with
        | None => inl CatalogException
        | Some tb =>
            if negb (Nat.eqb (vec_dim tb) 384) then inl BinderException
            else if negb (Nat.eqb (length vec) 384) then inl ConversionException
            else inr (project [Col_text] <$>
                        select_rows (has_index (stored w inst) tn) vec 3
                          (rows tb))
        end
    end
  else inl IOException.
Proof.
  unfold find_closest_word_match, mbind, task_bind, bind, connect, execute.
  simpl. rewrite lookup_snoc. simpl.
  destruct (vss_installed w) eqn:Hi; [|done].
  simpl. rewrite insert_snoc.
  destruct emb as [[|[word vec] rest]|]; simpl; try done.
  unfold getitem_dict. simpl. rewrite String.eqb_refl. simpl.
  rewrite lookup_snoc. simpl.
  unfold table_at, stored, db_of. simpl.
  destruct (in_memory inst); simpl;
    (destruct (_ !! tn) as [tb|]; [|done]);
    destruct (negb (Nat.eqb (vec_dim tb) 384)); try done;
    destruct (negb (Nat.eqb (length vec) 384)); try done;
    by rewrite andb_true_r.
Qed.

(** X1: [find_closest_word_match] changes no database file, and leaves
    the connection it made open however it ends: it has no
    [cursor.close()]. *)
Lemma find_closest_word_match_final_world inst tn emb w :
  let w' := final_world (find_closest_word_match inst tn emb w) in
  files w' = files w ∧
  ∃ c, conns w' = conns w ++ [c] ∧ conn_open c = true.
Proof.
  unfold find_closest_word_match, mbind, task_bind, bind, connect, execute.
  simpl. rewrite lookup_snoc. simpl.
  destruct (vss_installed w) eqn:Hi; [|by eauto].
  simpl. rewrite insert_snoc.
  destruct emb as [[|[word vec] rest]|]; simpl; try by eauto.
  unfold getitem_dict. simpl. rewrite String.eqb_refl. simpl.
  rewrite lookup_snoc. simpl.
  destruct (_ !! tn) as [tb|]; [|by eauto].
  destruct (negb (Nat.eqb (vec_dim tb) 384)); [by eauto|].
  destruct (negb (Nat.eqb (length vec) 384)); by eauto.
Qed.

Lemma bind_unfold {A B} (m : task A) (k : A → task B) w :
  (m ≫= k) w =
  match m w with
  | Returned a w' => k a w'
  | Raised e w' => Raised e w'
  end.
Proof. done. Qed.

Lemma execute_snoc i d fs cs c s :
  conn_open c = true →
  execute (length cs) s (World i d fs (cs ++ [c])) =
  run (length cs) c s (World i d fs (cs ++ [c])).
Proof. intros Ho. unfold execute. simpl. by rewrite lookup_snoc, Ho. Qed.

Lemma connect_unfold path i d fs cs :
  connect path (World i d fs cs) =
  Returned (length cs)
    (World i d fs (cs ++ [Connection path true false false empty_database])).
Proof. done. Qed.

Lemma close_snoc i d fs cs c :
  close (length cs) (World i d fs (cs ++ [c])) =
  Returned () (World i d fs (cs ++ [set_conn_open false c])).
Proof. unfold close. simpl. rewrite lookup_snoc. unfold set_conns. simpl. by rewrite insert_snoc. Qed.

Ltac step :=
  rewrite ?bind_unfold;
  first [ rewrite connect_unfold
        | rewrite close_snoc
        | rewrite execute_snoc by done;
          cbn [run vss_installed vss_downloadable files conns vss_loaded
               hnsw_persistence conn_database conn_open conn_memory];
          unfold commit, db_of ];
  cbn [conn_database];
  repeat match goal with
         | H : in_memory _ = _ |- _ => rewrite H
         end;
  unfold set_conns, set_files, set_vss_installed,
    set_vss_loaded, set_hnsw_persistence, set_conn_memory, set_conn_open;
  cbn [vss_installed vss_downloadable files conns vss_loaded
       hnsw_persistence conn_database conn_open conn_memory
       tables indexes negb orb andb];
  rewrite ?insert_snoc.

(** [create_vector_table] on a database file, step by step. *)
Lemma create_vector_table_file inst tn i d fs cs :
  in_memory inst = false →
  let db := default empty_database (fs !! inst) in
  let tbs := <["embeddings_table" := Table 384 []]> (tables db) in
  let idx := filter (λ it : string * string, it.2 ≠ "embeddings_table")
               (indexes db) in
  create_vector_table inst tn (World i d fs cs) =
  if i || d then
    match idx !! "my_hnsw_index" with
    | Some _ =>
        Raised CatalogException
          (World true d (<[inst := Database tbs idx]> fs)
             (cs ++ [Connection inst true true true empty_database]))
    | None =>
        Returned ()
          (World true d
             (<[inst := Database tbs
                          (<["my_hnsw_index" := "embeddings_table"]> idx)]> fs)
             (cs ++ [Connection inst false true true empty_database]))
    end
  else
    Raised IOException
      (World i d fs (cs ++ [Connection inst true false false empty_database])).
Proof.
  intros Hmem db tbs idx.
  unfold create_vector_table.
  step. step.
  destruct i; [|destruct d]; simpl "||"; cbv iota.
  3: done.
  - step. step. cbn [execute_script]. step. step.
    rewrite lookup_insert_eq. cbn [default from_option id tables indexes].
    rewrite lookup_insert_eq. fold db. fold tbs. fold idx.
    destruct (idx !! "my_hnsw_index"); [done|].
    step. by rewrite insert_insert_eq.
  - step. step. cbn [execute_script]. step. step.
    rewrite lookup_insert_eq. cbn [default from_option id tables indexes].
    rewrite lookup_insert_eq. fold db. fold tbs. fold idx.
    destruct (idx !! "my_hnsw_index"); [done|].
    step. by rewrite insert_insert_eq.
Qed.

(** *** Insertion *)

Lemma insert_one inst tn i d fs cs p tbs idx dim rs rec :
  in_memory inst = false →
  (word ← getitem_list (keys rec) 0;
   vec ← getitem_dict rec word;
   execute (length cs) (INSERT_INTO tn word vec) ;;
   ret ()) (loaded inst tn i d fs cs p tbs idx dim rs) =
  match record_error dim rec with
  | Some e => Raised e (loaded inst tn i d fs cs p tbs idx dim rs)
  | None => Returned () (loaded inst tn i d fs cs p tbs idx dim (rs ++ rows_of [rec]))
  end.
Proof.
  intros Hmem. unfold loaded.
  destruct rec as [|[word vec] rest]; [done|].
  rewrite bind_unfold. cbn [keys fmap list_fmap fst getitem_list lookup list_lookup ret].
  rewrite bind_unfold. unfold getitem_dict. cbn [dict_get].
  rewrite String.eqb_refl. cbn [ret].
  step. rewrite lookup_insert_eq. cbn [default from_option id tables].
  rewrite lookup_insert_eq, andb_false_r. cbn [vec_dim rows record_error].
  destruct (Nat.eqb (length vec) dim); [|done].
  cbn [negb ret rows_of omap list_omap head]. by rewrite !insert_insert_eq.
Qed.

Lemma for_each_app {A} (l1 l2 : list A) body w :
  for_each (l1 ++ l2) body w =
  match for_each l1 body w with
  | Returned _ w' => for_each l2 body w'
  | Raised e w' => Raised e w'
  end.
Proof.
  revert w. induction l1 as [|x l1 IH]; intros w; [done|].
  cbn [app for_each]. rewrite !bind_unfold.
  destruct (body x w); [apply IH|done].
Qed.

Lemma rows_of_app batch batch' :
  rows_of (batch ++ batch') = rows_of batch ++ rows_of batch'.
Proof. apply omap_app. Qed.

Lemma insert_loop inst tn i d fs cs p tbs idx dim batch : ∀ rs,
  in_memory inst = false →
  Forall (λ rec, record_error dim rec = None) batch →
  for_each batch (λ rec,
    word ← getitem_list (keys rec) 0;
    vec ← getitem_dict rec word;
    execute (length cs) (INSERT_INTO tn word vec) ;;
    ret ()) (loaded inst tn i d fs cs p tbs idx dim rs) =
  Returned () (loaded inst tn i d fs cs p tbs idx dim (rs ++ rows_of batch)).
Proof.
  induction batch as [|rec batch IH]; intros rs Hmem Hok.
  - cbn. by rewrite app_nil_r.
  - inversion_clear Hok as [|?? Hrec Hbatch].
    cbn [for_each]. rewrite bind_unfold, insert_one, Hrec by done.
    rewrite IH by done. by rewrite <- app_assoc, <- rows_of_app.
Qed.

Lemma table_at_loaded inst tn i d fs cs p tbs idx dim rs :
  in_memory inst = false →
  table_at (loaded inst tn i d fs cs p tbs idx dim rs) inst tn =
  Some (Table dim rs).
Proof.
  intros Hmem. unfold table_at, stored, loaded. rewrite Hmem.
  cbn [files]. rewrite lookup_insert_eq. cbn [default from_option id tables].
  by rewrite lookup_insert_eq.
Qed.

Lemma table_at_present i d fs cs inst tn tb :
  table_at (World i d fs cs) inst tn = Some tb →
  in_memory inst = false ∧
  ∃ tbs idx,
    fs = <[inst := Database (<[tn := Table (vec_dim tb) (rows tb)]> tbs) idx]> fs.
Proof.
  unfold table_at, stored, empty_database. cbn [files].
  destruct (in_memory inst); cbn [tables]; [by rewrite lookup_empty|].
  destruct (fs !! inst) as [[tbs idx]|] eqn:Hfs;
    cbn [default from_option id tables]; [|by rewrite lookup_empty].
  intros Htb. split; [done|]. exists tbs, idx.
  destruct tb as [dim rs]. cbn [vec_dim rows].
  by rewrite (insert_id tbs), (insert_id fs).
Qed.

Lemma insert_words_into_db_run inst tn i d fs cs tbs idx dim rs batch :
  in_memory inst = false →
  i || d = true →
  insert_words_into_db inst tn (Some batch)
    (World i d (<[inst := Database (<[tn := Table dim rs]> tbs) idx]> fs) cs) =
  match
    for_each batch (λ rec,
      word ← getitem_list (keys rec) 0;
      vec ← getitem_dict rec word;
      execute (length cs) (INSERT_INTO tn word vec) ;;
      ret ()) (loaded inst tn true d fs cs false tbs idx dim rs)
  with
  | Returned _ w' => close (length cs) w'
  | Raised e w' => Raised e w'
  end.
Proof.
  intros Hmem Hav. unfold insert_words_into_db, loaded.
  step. step.
  destruct i; [|destruct d; [|done]]; simpl "||"; cbv iota; by step.
Qed.

Lemma insert_words_into_db_returns inst tn batch w tb :
  vss_available w = true →
  table_at w inst tn = Some tb →
  Forall (λ rec, record_error (vec_dim tb) rec = None) batch →
  ∃ w', insert_words_into_db inst tn (Some batch) w = Returned () w' ∧
        table_at w' inst tn =
          Some (Table (vec_dim tb) (rows tb ++ rows_of batch)) ∧
        vss_installed w' = true ∧
        conns w' = conns w ++ [Connection inst false true false empty_database].
Proof.
  destruct w as [i d fs cs]. unfold vss_available. cbn [vss_installed vss_downloadable conns].
  intros Hav Htb Hok.
  destruct (table_at_present _ _ _ _ _ _ _ Htb) as (Hmem & tbs & idx & ->).
  rewrite insert_words_into_db_run, insert_loop by done.
  unfold loaded. rewrite close_snoc. eexists. split; [done|].
  split; [by apply (table_at_loaded inst tn true d fs cs false)|done].
Qed.

Lemma insert_words_into_db_raises inst tn pre bad post w tb e :
  vss_available w = true →
  table_at w inst tn = Some tb →
  Forall (λ rec, record_error (vec_dim tb) rec = None) pre →
  record_error (vec_dim tb) bad = Some e →
  ∃ w', insert_words_into_db inst tn (Some (pre ++ bad :: post)) w = Raised e w' ∧
        table_at w' inst tn =
          Some (Table (vec_dim tb) (rows tb ++ rows_of pre)) ∧
        vss_installed w' = true ∧
        conns w' = conns w ++ [Connection inst true true false empty_database].
Proof.
  destruct w as [i d fs cs]. unfold vss_available. cbn [vss_installed vss_downloadable conns].
  intros Hav Htb Hok Hbad.
  destruct (table_at_present _ _ _ _ _ _ _ Htb) as (Hmem & tbs & idx & ->).
  rewrite insert_words_into_db_run, for_each_app, insert_loop by done.
  cbn [for_each]. rewrite bind_unfold, insert_one, Hbad by done.
  eexists. split; [done|].
  split; [by apply (table_at_loaded inst tn true d fs cs false)|done].
Qed.

Lemma insert_words_into_db_indexes inst tn batch w tb :
  vss_available w = true →
  table_at w inst tn = Some tb →
  Forall (λ rec, record_error (vec_dim tb) rec = None) batch →
  indexes (stored (final_world (insert_words_into_db inst tn (Some batch) w))
             inst)
  = indexes (stored w inst).
Proof.
  destruct w as [i d fs cs]. unfold vss_available. cbn [vss_installed vss_downloadable conns].
  intros Hav Htb Hok.
  destruct (table_at_present _ _ _ _ _ _ _ Htb) as (Hmem & tbs & idx & ->).
  rewrite insert_words_into_db_run, insert_loop by done.
  unfold loaded. rewrite close_snoc. cbn [final_world].
  unfold stored. rewrite Hmem. cbn [files]. by rewrite !lookup_insert_eq.
Qed.

Lemma has_index_lookup db idx t :
  indexes db !! idx = Some t → has_index db t = true.
Proof.
  intros Hidx. apply bool_decide_eq_true, Exists_exists.
  exists (idx, t). split; [by apply elem_of_map_to_list|done].
Qed.

Lemma rows_of_length dim batch :
  Forall (λ rec, record_error dim rec = None) batch →
  length (rows_of batch) = length batch.
Proof.
  unfold rows_of.
  induction 1 as [|[|[??] ?] l Hrec _ IH]; [done|done|].
  cbn. by rewrite IH.
Qed.

Lemma keeps_ret I {A} (a : A) : keeps I (ret a).
Proof. by intros w Hw. Qed.

Lemma keeps_raise I {A} e : keeps I (raise (A:=A) e).
Proof. by intros w Hw. Qed.

Lemma keeps_bind I {A B} (m : task A) (k : A → task B) :
  keeps I m → (∀ a, keeps I (k a)) → keeps I (m ≫= k).
Proof.
  intros Hm Hk w Hw. rewrite bind_unfold. specialize (Hm w Hw).
  destruct (m w) as [a w'|e w']; [by apply Hk|done].
Qed.

Lemma keeps_for_each I {A} (l : list A) body :
  (∀ x, keeps I (body x)) → keeps I (for_each l body).
Proof.
  intros Hbody. induction l as [|x l IH]; [apply keeps_ret|].
  apply keeps_bind; [apply Hbody|by intros _].
Qed.

Lemma keeps_getitem_list I {A} (l : list A) n : keeps I (getitem_list l n).
Proof. unfold getitem_list. destruct (l !! n); [apply keeps_ret|apply keeps_raise]. Qed.

Lemma keeps_getitem_dict I {V} (d : dict V) k : keeps I (getitem_dict d k).
Proof. unfold getitem_dict. destruct (dict_get d k); [apply keeps_ret|apply keeps_raise]. Qed.

Lemma execute_keeps_last_open cs s :
  keeps (last_open cs) (execute (length cs) s).
Proof.
  intros [i d fs cs'] (c & Hcs & Hopen). cbn [conns] in Hcs. subst cs'.
  rewrite execute_snoc by done.
  assert (∀ i' d' fs' c', conn_open c' = true →
            last_open cs (World i' d' fs' (cs ++ [c']))) as Hlast.
  { intros i' d' fs' c' Hc'. by exists c'. }
  assert (∀ db, last_open cs
            (commit (length cs) c db (World i d fs (cs ++ [c])))) as Hcommit.
  { intros db. unfold commit, set_conns, set_files. cbn [conns].
    destruct (in_memory (conn_database c)); rewrite ?insert_snoc;
      by apply Hlast. }
  destruct s; cbn [run vss_installed vss_downloadable conns];
    unfold set_conns, set_vss_installed; cbn [conns vss_installed vss_downloadable files];
    rewrite ?insert_snoc;
    repeat case_match; cbn [final_world]; auto.
Qed.

Lemma execute_script_keeps_last_open cs ss :
  keeps (last_open cs) (execute_script (length cs) ss).
Proof.
  induction ss as [|s [|s' ss] IH]; [apply keeps_ret|apply execute_keeps_last_open|].
  change (keeps (last_open cs)
            (execute (length cs) s ;; execute_script (length cs) (s' :: ss))).
  apply keeps_bind; [apply execute_keeps_last_open|by intros _].
Qed.

Lemma close_closes cs : closes_on_return_only cs (close (length cs)).
Proof.
  intros [i d fs cs'] (c & Hcs & Hopen). cbn [conns] in Hcs. subst cs'.
  rewrite close_snoc. by eexists.
Qed.

Lemma bind_closes cs {A B} (m : task A) (k : A → task B) :
  keeps (last_open cs) m →
  (∀ a, closes_on_return_only cs (k a)) →
  closes_on_return_only cs (m ≫= k).
Proof.
  intros Hm Hk w Hw. rewrite bind_unfold. specialize (Hm w Hw).
  destruct (m w) as [a w'|e w']; [by apply Hk|].
  destruct Hm as (c & ? & ?). by exists c.
Qed.

Lemma connect_last_open path w :
  ∃ w', connect path w = Returned (length (conns w)) w' ∧
        last_open (conns w) w'.
Proof. eexists. split; [done|]. by eexists. Qed.

(** *** The worlds of the DAG *)

Lemma index_of_embeddings_db_of w cursor c :
  dag_world w → conns w !! cursor = Some c → index_of_embeddings (db_of w c).
Proof.
  intros (_ & Hfiles & Hconns) Hc. unfold db_of.
  destruct (in_memory (conn_database c)).
  - by apply (Forall_lookup_1 _ _ _ _ Hconns Hc).
  - destruct (files w !! conn_database c) as [db|] eqn:Hdb.
    + by apply (map_Forall_lookup_1 _ _ _ _ Hfiles Hdb).
    + intros t. cbn. by rewrite lookup_empty.
Qed.

Lemma dag_world_commit w cursor c db :
  dag_world w → index_of_embeddings db → dag_world (commit cursor c db w).
Proof.
  intros (Hav & Hfiles & Hconns) Hdb. unfold commit.
  destruct (in_memory (conn_database c)).
  - split; [done|]. split; [done|]. by apply Forall_insert.
  - split; [done|]. split; [|done]. by apply map_Forall_insert_2.
Qed.

Lemma dag_world_set_conn w cursor c c' :
  dag_world w → conns w !! cursor = Some c →
  conn_memory c' = conn_memory c →
  dag_world (set_conns (<[cursor := c']> (conns w)) w).
Proof.
  intros (Hav & Hfiles & Hconns) Hc Hmem.
  split; [done|]. split; [done|]. apply Forall_insert; [done|].
  rewrite Hmem. by apply (Forall_lookup_1 _ _ _ _ Hconns Hc).
Qed.

Lemma execute_keeps_dag_world cursor s :
  dag_statement s → keeps dag_world (execute cursor s).
Proof.
  intros Hs w Hw. unfold execute.
  destruct (conns w !! cursor) as [c|] eqn:Hc; [|done].
  destruct (conn_open c); [|done].
  pose proof (index_of_embeddings_db_of w cursor c Hw Hc) as Hdb.
  destruct s; cbn [run].
  - destruct Hw as (Hav & Hfiles & Hconns).
    destruct (vss_installed w) eqn:Hi; [done|].
    by destruct (vss_downloadable w).
  - destruct (vss_installed w); [|done]. by eapply dag_world_set_conn.
  - destruct (vss_loaded c); [|done]. by eapply dag_world_set_conn.
  - apply dag_world_commit; [done|]. intros t' Ht'. cbn [indexes] in Ht'.
    apply map_lookup_filter_Some in Ht' as [Ht' _]. by apply Hdb.
  - destruct (negb (vss_loaded c)); [done|].
    destruct (tables (db_of w c) !! t); [|done].
    destruct (indexes (db_of w c) !! idx) eqn:Hidx; [done|].
    destruct (negb _); [done|].
    apply dag_world_commit; [done|]. intros t' Ht'. cbn [indexes] in Ht'.
    destruct (decide (idx = "my_hnsw_index")) as [->|Hne].
    + rewrite lookup_insert_eq in Ht'. injection Ht' as <-. by apply Hs.
    + rewrite lookup_insert_ne in Ht' by done. by apply Hdb.
  - destruct (tables (db_of w c) !! t) as [tb|]; [|done].
    destruct (_ && _); [done|]. destruct (negb _); [done|].
    by apply dag_world_commit.
  - destruct (tables (db_of w c) !! t) as [tb|]; [|done].
    destruct (negb _); [done|]. by destruct (negb _).
Qed.

Lemma connect_keeps_dag_world path : keeps dag_world (connect path).
Proof.
  intros w (Hav & Hfiles & Hconns). split; [done|]. split; [done|].
  apply Forall_app. split; [done|]. constructor; [|done].
  intros t. cbn. by rewrite lookup_empty.
Qed.

Lemma close_keeps_dag_world cursor : keeps dag_world (close cursor).
Proof.
  intros w Hw. unfold close.
  destruct (conns w !! cursor) as [c|] eqn:Hc; [|done].
  by eapply dag_world_set_conn.
Qed.

(** Every task of the DAG, however it ends, leaves a world of the DAG. *)
Lemma create_vector_table_keeps_dag_world inst tn :
  keeps dag_world (create_vector_table inst tn).
Proof.
  apply keeps_bind; [apply connect_keeps_dag_world|intros cursor].
  apply keeps_bind; [by apply execute_keeps_dag_world|intros _].
  apply keeps_bind; [by apply execute_keeps_dag_world|intros _].
  apply keeps_bind; [by apply execute_keeps_dag_world|intros _].
  apply keeps_bind; [|intros _; apply close_keeps_dag_world].
  apply keeps_bind; [by apply execute_keeps_dag_world|intros _].
  by apply execute_keeps_dag_world.
Qed.

Lemma insert_words_into_db_keeps_dag_world inst tn batch :
  keeps dag_world (insert_words_into_db inst tn batch).
Proof.
  apply keeps_bind; [apply connect_keeps_dag_world|intros cursor].
  apply keeps_bind; [by apply execute_keeps_dag_world|intros _].
  apply keeps_bind; [by apply execute_keeps_dag_world|intros _].
  apply keeps_bind; [|intros _; apply close_keeps_dag_world].
  destruct batch as [l|]; [|apply keeps_raise].
  apply keeps_for_each. intros rec.
  apply keeps_bind; [apply keeps_getitem_list|intros word].
  apply keeps_bind; [apply keeps_getitem_dict|intros vec].
  apply keeps_bind; [by apply execute_keeps_dag_world|intros _].
  apply keeps_ret.
Qed.

Lemma find_closest_word_match_keeps_dag_world inst tn emb :
  keeps dag_world (find_closest_word_match inst tn emb).
Proof.
  apply keeps_bind; [apply connect_keeps_dag_world|intros cursor].
  apply keeps_bind; [by apply execute_keeps_dag_world|intros _].
  destruct emb as [d|]; [|apply keeps_raise].
  apply keeps_bind; [apply keeps_getitem_list|intros word].
  apply keeps_bind; [apply keeps_getitem_dict|intros vec].
  apply keeps_bind; [by apply execute_keeps_dag_world|intros top_3].
  apply keeps_ret.
Qed.

(** In a world of the DAG, a database file meets what
    [create_vector_table] needs of its index name. *)
Lemma dag_world_stored w inst :
  dag_world w → index_of_embeddings (stored w inst).
Proof.
  intros (_ & Hfiles & _). unfold stored.
  destruct (in_memory inst); [intros t; cbn; by rewrite lookup_empty|].
  destruct (files w !! inst) as [db|] eqn:Hdb.
  - by apply (map_Forall_lookup_1 _ _ _ _ Hfiles Hdb).
  - intros t. cbn. by rewrite lookup_empty.
Qed.

(** *** Further runs *)

(** [INSTALL vss] fails: the task stops there, with its connection open. *)
Lemma create_vector_table_unavailable inst tn i d fs cs :
  i || d = false →
  create_vector_table inst tn (World i d fs cs) =
  Raised IOException
    (World i d fs (cs ++ [Connection inst true false false empty_database])).
Proof.
  intros Hav. unfold create_vector_table. step. step.
  by destruct i, d.
Qed.

Lemma insert_words_into_db_unavailable inst tn batch i d fs cs :
  i || d = false →
  insert_words_into_db inst tn batch (World i d fs cs) =
  Raised IOException
    (World i d fs (cs ++ [Connection inst true false false empty_database])).
Proof.
  intros Hav. unfold insert_words_into_db. step. step.
  by destruct i, d.
Qed.

(** [insert_words_into_db] up to its loop. *)
Lemma insert_words_into_db_prelude inst tn batch i d fs cs :
  i || d = true →
  insert_words_into_db inst tn batch (World i d fs cs) =
  match
    match batch with
    | None => raise TypeError
    | Some l =>
        for_each l (λ rec,
          word ← getitem_list (keys rec) 0;
          vec ← getitem_dict rec word;
          execute (length cs) (INSERT_INTO tn word vec) ;;
          ret ())
    end (World true d fs (cs ++ [Connection inst true true false empty_database]))
  with
  | Returned _ w' => close (length cs) w'
  | Raised e w' => Raised e w'
  end.
Proof.
  intros Hav. unfold insert_words_into_db. step. step.
  destruct i; [|destruct d; [|done]]; simpl "||"; cbv iota; by step.
Qed.

(** The first [INSERT] into a table that is not there. *)
Lemma insert_one_missing inst tn i d fs cs p word vec rest :
  tables (stored (World i d fs cs) inst) !! tn = None →
  (key ← getitem_list (keys ((word, vec) :: rest)) 0;
   val ← getitem_dict ((word, vec) :: rest) key;
   execute (length cs) (INSERT_INTO tn key val) ;;
   ret ())
    (World i d fs (cs ++ [Connection inst true true p empty_database])) =
  Raised CatalogException
    (World i d fs (cs ++ [Connection inst true true p empty_database])).
Proof.
  unfold stored. cbn [files]. intros Hmissing.
  rewrite bind_unfold. cbn [keys fmap list_fmap fst getitem_list lookup list_lookup ret].
  rewrite bind_unfold. unfold getitem_dict. cbn [dict_get].
  rewrite String.eqb_refl. cbn [ret].
  rewrite bind_unfold, execute_snoc by done.
  cbn [run]. unfold db_of. cbn [conn_database conn_memory files].
  by rewrite Hmissing.
Qed.

(** [create_vector_table] on the in-memory database: the table and its
    index are made in the connection, and go with it. *)
Lemma create_vector_table_memory inst tn i d fs cs :
  in_memory inst = true →
  i || d = true →
  create_vector_table inst tn (World i d fs cs) =
  Returned ()
    (World true d fs
       (cs ++ [Connection inst false true true
                 (Database {["embeddings_table" := Table 384 []]}
                           {["my_hnsw_index" := "embeddings_table"]})])).
Proof.
  intros Hmem Hav. unfold create_vector_table. step. step.
  destruct i; [|destruct d; [|done]]; simpl "||"; cbv iota.
  - step. step. cbn [execute_script]. step. step.
    unfold empty_database. cbn [tables indexes].
    rewrite lookup_insert_eq, map_filter_empty, lookup_empty.
    by step.
  - step. step. cbn [execute_script]. step. step.
    unfold empty_database. cbn [tables indexes].
    rewrite lookup_insert_eq, map_filter_empty, lookup_empty.
    by step.
Qed.

(** *** Other database files *)

Lemma leads_bind J Q {A B} (m : task A) (k : A → task B) :
  keeps J m → (∀ w, J w → Q w) → (∀ a, leads J Q (k a)) →
  leads J Q (m ≫= k).
Proof.
  intros Hm HJQ Hk w Hw. rewrite bind_unfold. specialize (Hm w Hw).
  destruct (m w) as [a w'|e w']; [by apply Hk|by apply HJQ].
Qed.

Lemma execute_keeps_working_on cs inst path v s :
  path ≠ inst → keeps (working_on cs inst path v) (execute (length cs) s).
Proof.
  intros Hne [i d fs cs'] ((c & Hcs & Hopen & Hinst) & Hfile).
  cbn [conns files] in Hcs, Hfile. subst cs'.
  rewrite execute_snoc by done.
  assert (∀ i' d' c', conn_open c' = true → conn_database c' = inst →
            working_on cs inst path v (World i' d' fs (cs ++ [c']))) as Hconn.
  { intros i' d' c' ??. split; [by exists c'|done]. }
  assert (∀ db, working_on cs inst path v
            (commit (length cs) c db (World i d fs (cs ++ [c])))) as Hcommit.
  { intros db. unfold commit, set_conns, set_files. cbn [conns files].
    destruct (in_memory (conn_database c)); rewrite ?insert_snoc.
    - by apply Hconn.
    - split; [by exists c|]. cbn [files].
      rewrite lookup_insert_ne; [done|congruence]. }
  destruct s; cbn [run vss_installed vss_downloadable conns];
    unfold set_conns, set_vss_installed;
    cbn [conns vss_installed vss_downloadable files];
    rewrite ?insert_snoc;
    repeat case_match; cbn [final_world]; auto.
Qed.

Lemma execute_script_keeps_working_on cs inst path v ss :
  path ≠ inst →
  keeps (working_on cs inst path v) (execute_script (length cs) ss).
Proof.
  intros Hne.
  induction ss as [|s [|s' ss] IH];
    [apply keeps_ret|by apply execute_keeps_working_on|].
  change (keeps (working_on cs inst path v)
            (execute (length cs) s ;; execute_script (length cs) (s' :: ss))).
  apply keeps_bind; [by apply execute_keeps_working_on|by intros _].
Qed.

Lemma close_leads_file cs inst path v :
  leads (working_on cs inst path v) (λ w, files w !! path = v)
    (close (length cs)).
Proof.
  intros [i d fs cs'] ((c & Hcs & _) & Hfile). cbn [conns] in Hcs. subst cs'.
  by rewrite close_snoc.
Qed.

Lemma connect_working_on inst path w :
  ∃ w', connect inst w = Returned (length (conns w)) w' ∧
        working_on (conns w) inst path (files w !! path) w'.
Proof. eexists. split; [done|]. split; [by eexists|done]. Qed.

End Tasks.

(** ** The claims *)

Section Claims.
Context `{F : Floats} `{!Search}.

(** C1, as amended: on a table of [FLOAT[384]] and for a query vector of
    length 384, [find_closest_word_match] returns the texts of
    [min 3 n] of the [n] stored rows, in ascending order of their
    Euclidean distance from the query.  The number of results is fixed by
    [LIMIT 3]; the task has no [k].  The rows found are those at the
    smallest distances when the table has no HNSW index, or no more than
    three rows; on a larger table with the index, as
    [create_vector_table] makes it, they come from the approximate search
    of the index. *)
Theorem find_closest_word_match_three_nearest inst tn w tb word q rest :
  vss_installed w = true →
  table_at w inst tn = Some tb →
  vec_dim tb = 384 →
  length q = 384 →
  ∃ found,
    result (find_closest_word_match inst tn (Some ((word, q) :: rest)) w) =
      inr (texts found) ∧
    length found = 3 `min` length (rows tb) ∧
    found ⊆+ rows tb ∧
    StronglySorted (closer q) found ∧
    (has_index (stored w inst) tn = false ∨ length (rows tb) ≤ 3 →
     k_nearest q (3 `min` length (rows tb)) (rows tb) found).
Proof.
  intros Hvss Htb Hdim Hq.
  exists (select_rows (has_index (stored w inst) tn) q 3 (rows tb)).
  split; [by rewrite find_closest_word_match_result, Hvss, Htb, Hdim, Hq|].
  split; [apply select_rows_length|].
  split; [apply select_rows_submseteq|].
  split; [apply select_rows_sorted|apply select_rows_nearest].
Qed.

(** *** Insertion and the dimension of the column *)

Lemma rows_of_valid dim batch :
  Forall (λ rec, record_error dim rec = None) batch →
  Forall (λ r : row, length r.2 = dim) (rows_of batch).
Proof.
  induction 1 as [|rec batch Hrec _ IH]; [constructor|].
  destruct rec as [|[word vec] rest]; [done|].
  cbn in Hrec |- *. constructor; [|done].
  destruct (Nat.eqb_spec (length vec) dim); done.
Qed.

(** A batch is without fault, or has a first record at fault. *)
Lemma first_record_error dim batch :
  Forall (λ rec, record_error dim rec = None) batch ∨
  ∃ pre bad post e,
    batch = pre ++ bad :: post ∧
    Forall (λ rec, record_error dim rec = None) pre ∧
    record_error dim bad = Some e.
Proof.
  induction batch as [|rec batch IH]; [by left|].
  destruct (record_error dim rec) as [e|] eqn:Hrec.
  { right. by exists [], rec, batch, e. }
  destruct IH as [Hok|(pre & bad & post & e & -> & Hpre & Hbad)].
  - left. by constructor.
  - right. exists (rec :: pre), bad, post, e. by repeat constructor.
Qed.

(** C2, as amended: on a table of [FLOAT[384]], whatever
    [insert_words_into_db] has inserted has length 384, and when it
    returns every vector of the batch had length 384 and is stored; the
    insertion of a record whose vector has another length raises DuckDB's
    conversion error, and the table is then as the records before it left
    it: its rows before the call, followed by the rows of those records.
    The table is as it was before the call only when no record comes
    before the failing one. *)
Theorem insert_words_into_db_dimension inst tn w tb batch :
  vss_available w = true →
  table_at w inst tn = Some tb →
  vec_dim tb = 384 →
  Forall (λ r : row, length r.2 = 384) (rows tb) →
  let o := insert_words_into_db inst tn (Some batch) w in
  (∃ tb', table_at (final_world o) inst tn = Some tb' ∧
          vec_dim tb' = 384 ∧
          Forall (λ r : row, length r.2 = 384) (rows tb')) ∧
  (result o = inr () →
     Forall (λ rec, ∃ word vec rest,
               rec = (word, vec) :: rest ∧ length vec = 384) batch ∧
     table_at (final_world o) inst tn =
       Some (Table 384 (rows tb ++ rows_of batch))) ∧
  (∀ pre word vec rest post,
     batch = pre ++ ((word, vec) :: rest) :: post →
     Forall (λ rec, record_error 384 rec = None) pre →
     length vec ≠ 384 →
     result o = inl ConversionException ∧
     table_at (final_world o) inst tn =
       table_at (final_world (insert_words_into_db inst tn (Some pre) w)) inst tn ∧
     table_at (final_world o) inst tn =
       Some (Table 384 (rows tb ++ rows_of pre))).
Proof.
  intros Hav Htb Hdim Hrows o. subst o.
  split; [|split].
  - destruct (first_record_error 384 batch)
      as [Hok|(pre & bad & post & e & -> & Hpre & Hbad)].
    + rewrite <- Hdim in Hok.
      destruct (insert_words_into_db_returns _ _ _ _ _ Hav Htb Hok)
        as (w' & -> & Htb' & _).
      eexists. split; [exact Htb'|]. split; [done|]. cbn [rows].
      apply Forall_app. split; [done|]. apply rows_of_valid. by rewrite <- Hdim.
    + rewrite <- Hdim in Hpre, Hbad.
      destruct (insert_words_into_db_raises _ _ _ _ post _ _ _ Hav Htb Hpre Hbad)
        as (w' & -> & Htb' & _).
      eexists. split; [exact Htb'|]. split; [done|]. cbn [rows].
      apply Forall_app. split; [done|]. apply rows_of_valid. by rewrite <- Hdim.
  - destruct (first_record_error 384 batch)
      as [Hok|(pre & bad & post & e & -> & Hpre & Hbad)].
    + intros _. split.
      * eapply Forall_impl; [exact Hok|]. intros [|[word vec] rest]; [done|].
        cbn. destruct (Nat.eqb_spec (length vec) 384); [by eauto|done].
      * rewrite <- Hdim in Hok |- *.
        by destruct (insert_words_into_db_returns _ _ _ _ _ Hav Htb Hok)
          as (w' & -> & Htb' & _).
    + rewrite <- Hdim in Hpre, Hbad.
      by destruct (insert_words_into_db_raises _ _ _ _ post _ _ _ Hav Htb Hpre Hbad)
        as (w' & -> & _).
  - intros pre word vec rest post -> Hpre Hvec.
    assert (record_error (vec_dim tb) ((word, vec) :: rest)
            = Some ConversionException) as Hbad.
    { cbn. rewrite Hdim. by destruct (Nat.eqb_spec (length vec) 384). }
    rewrite <- Hdim in Hpre |- *.
    destruct (insert_words_into_db_raises _ _ _ _ post _ _ _ Hav Htb Hpre Hbad)
      as (w' & -> & Htb' & _).
    destruct (insert_words_into_db_returns _ _ _ _ _ Hav Htb Hpre)
      as (w'' & -> & Htb'' & _).
    cbn [result final_world]. by rewrite Htb', Htb''.
Qed.

(** C3, as amended: a batch is not atomic.  When a record fails
    validation (it has no key, or its vector does not have the length of
    the column), [insert_words_into_db] raises at that record: the rows of
    the records before it are in the table and stay there, and nothing of
    the failing record or of those after it is inserted. *)
Theorem insert_words_into_db_keeps_rows_before_failure
    inst tn w tb pre bad post e :
  vss_available w = true →
  table_at w inst tn = Some tb →
  Forall (λ rec, record_error (vec_dim tb) rec = None) pre →
  record_error (vec_dim tb) bad = Some e →
  ∃ w', insert_words_into_db inst tn (Some (pre ++ bad :: post)) w =
          Raised e w' ∧
        table_at w' inst tn =
          Some (Table (vec_dim tb) (rows tb ++ rows_of pre)).
Proof.
  intros Hav Htb Hpre Hbad.
  destruct (insert_words_into_db_raises _ _ _ _ post _ _ _ Hav Htb Hpre Hbad)
    as (w' & Hrun & Htb' & _).
  by exists w'.
Qed.

(** *** Creation *)

Lemma create_vector_table_returns inst tn w :
  vss_available w = true →
  in_memory inst = false →
  (∀ t, indexes (stored w inst) !! "my_hnsw_index" = Some t →
        t = "embeddings_table") →
  ∃ w', create_vector_table inst tn w = Returned () w' ∧
        table_at w' inst "embeddings_table" = Some (Table 384 []) ∧
        indexes (stored w' inst) !! "my_hnsw_index" = Some "embeddings_table" ∧
        vss_available w' = true.
Proof.
  destruct w as [i d fs cs]. unfold vss_available, table_at, stored.
  cbn [vss_installed vss_downloadable files].
  intros Hav Hmem Hidx. rewrite Hmem in Hidx |- *.
  rewrite create_vector_table_file, Hav by done.
  rewrite (proj2 (map_lookup_filter_None _ _ _)).
  - eexists. split; [done|]. cbn [files vss_installed].
    rewrite lookup_insert_eq. cbn [default from_option id tables indexes].
    by rewrite !lookup_insert_eq.
  - right. intros t Ht Hne. by apply Hne, Hidx.
Qed.

(** C4: on a database file, with the [vss] extension at hand and the name
    [my_hnsw_index] not taken by an index of another table, and whatever
    the tables hold, [create_vector_table] returns and leaves
    [embeddings_table] empty with its index; a second call right after does
    the same: neither the table nor the index of the first call makes it
    fail, and no row is carried over. *)
Theorem create_vector_table_twice inst tn tn' w :
  vss_available w = true →
  in_memory inst = false →
  (∀ t, indexes (stored w inst) !! "my_hnsw_index" = Some t →
        t = "embeddings_table") →
  ∃ w1 w2,
    create_vector_table inst tn w = Returned () w1 ∧
    table_at w1 inst "embeddings_table" = Some (Table 384 []) ∧
    indexes (stored w1 inst) !! "my_hnsw_index" = Some "embeddings_table" ∧
    create_vector_table inst tn' w1 = Returned () w2 ∧
    table_at w2 inst "embeddings_table" = Some (Table 384 []) ∧
    indexes (stored w2 inst) !! "my_hnsw_index" = Some "embeddings_table".
Proof.
  intros Hav Hmem Hidx.
  destruct (create_vector_table_returns inst tn w Hav Hmem Hidx)
    as (w1 & Hrun1 & Htb1 & Hidx1 & Hav1).
  destruct (create_vector_table_returns inst tn' w1 Hav1 Hmem)
    as (w2 & Hrun2 & Htb2 & Hidx2 & _).
  { intros t Ht. rewrite Hidx1 in Ht. by injection Ht. }
  by exists w1, w2.
Qed.

(** X2: in a world of the DAG, [create_vector_table] always returns on a
    database file and leaves [embeddings_table] empty, and the world it
    leaves is one of the DAG again, so that the next run returns as well. *)
Lemma create_vector_table_in_dag_world inst tn w :
  dag_world w →
  in_memory inst = false →
  ∃ w', create_vector_table inst tn w = Returned () w' ∧
        dag_world w' ∧
        table_at w' inst "embeddings_table" = Some (Table 384 []).
Proof.
  intros Hw Hmem.
  destruct (create_vector_table_returns inst tn w)
    as (w' & Hrun & Htb & _); [apply Hw|done|by apply dag_world_stored|].
  exists w'. split; [done|]. split; [|done].
  pose proof (create_vector_table_keeps_dag_world inst tn w Hw) as Hkeeps.
  by rewrite Hrun in Hkeeps.
Qed.

(** C9: the table [create_vector_table] creates is [embeddings_table],
    whatever [table_name] it is given: the argument does not change what
    the task does, the table left under [embeddings_table] is the new empty
    one, and a table under the name given, when that is another name, is
    as it was. *)
Theorem create_vector_table_ignores_table_name inst tn w :
  vss_available w = true →
  in_memory inst = false →
  (∀ tn', create_vector_table inst tn' w = create_vector_table inst tn w) ∧
  table_at (final_world (create_vector_table inst tn w)) inst
    "embeddings_table" = Some (Table 384 []) ∧
  (tn ≠ "embeddings_table" →
   table_at (final_world (create_vector_table inst tn w)) inst tn =
   table_at w inst tn).
Proof.
  destruct w as [i d fs cs]. unfold vss_available, table_at, stored.
  cbn [vss_installed vss_downloadable files].
  intros Hav Hmem. split; [done|]. rewrite Hmem.
  rewrite create_vector_table_file, Hav by done.
  destruct (filter _ _ !! "my_hnsw_index"); cbn [final_world files];
    rewrite lookup_insert_eq; cbn [default from_option id tables];
    (split; [by rewrite lookup_insert_eq|]);
    intros Hne; by rewrite lookup_insert_ne.
Qed.

(** *** Queries *)

(** C5, as amended: every entry [find_closest_word_match] returns is a row
    of one column, the text of a stored row; no distance comes with it.
    There are at most three entries. *)
Theorem find_closest_word_match_returns_texts inst tn emb w res :
  result (find_closest_word_match inst tn emb w) = inr res →
  length res ≤ 3 ∧
  ∃ tb, table_at w inst tn = Some tb ∧
        Forall (λ entry, ∃ r, r ∈ rows tb ∧ entry = [VText r.1]) res.
Proof.
  rewrite find_closest_word_match_result.
  destruct (vss_installed w); [|done].
  destruct emb as [[|[word q] rest]|]; [done| |done].
  destruct (table_at w inst tn) as [tb|]; [|done].
  destruct (negb _); [done|]. destruct (negb _); [done|].
  intros [= <-]. split.
  - rewrite length_fmap, select_rows_length. lia.
  - exists tb. split; [done|]. apply Forall_fmap, Forall_forall.
    intros r Hr. exists r. split; [|done].
    eapply elem_of_submseteq; [exact Hr|apply select_rows_submseteq].
Qed.

(** C7: against a table of [FLOAT[384]] without rows, as
    [create_vector_table] leaves it, and for a query vector of length 384,
    [find_closest_word_match] returns the empty list. *)
Theorem find_closest_word_match_empty_table inst tn w word q rest :
  vss_installed w = true →
  table_at w inst tn = Some (Table 384 []) →
  length q = 384 →
  result (find_closest_word_match inst tn (Some ((word, q) :: rest)) w) = inr [].
Proof.
  intros Hvss Htb Hq.
  rewrite find_closest_word_match_result, Hvss, Htb, Hq. cbn [vec_dim rows].
  by rewrite select_rows_nil.
Qed.

(** After [create_vector_table], on the table it made. *)
Lemma find_closest_word_match_after_create inst tn w w1 word q rest :
  in_memory inst = false →
  create_vector_table inst tn w = Returned () w1 →
  length q = 384 →
  result (find_closest_word_match inst "embeddings_table"
            (Some ((word, q) :: rest)) w1) = inr [].
Proof.
  destruct w as [i d fs cs]. intros Hmem Hrun Hq.
  rewrite create_vector_table_file in Hrun by done.
  destruct (i || d); [|done].
  destruct (filter _ _ !! "my_hnsw_index"); [done|].
  injection Hrun as <-.
  rewrite find_closest_word_match_result. cbn [vss_installed].
  unfold table_at, stored. rewrite Hmem. cbn [files].
  rewrite lookup_insert_eq. cbn [default from_option id tables].
  rewrite lookup_insert_eq, Hq. cbn [vec_dim rows].
  by rewrite select_rows_nil.
Qed.

(** C10: [find_closest_word_match] never returns more than three entries:
    what it returns has [min 3 n] entries, for [n] the number of rows of
    the table; and it does return on a table of [FLOAT[384]] for a query
    vector of length 384. *)
Theorem find_closest_word_match_count inst tn emb w :
  (∀ res, result (find_closest_word_match inst tn emb w) = inr res →
     ∃ tb, table_at w inst tn = Some tb ∧
           length res = 3 `min` length (rows tb) ∧ length res ≤ 3) ∧
  (∀ tb word q rest,
     emb = Some ((word, q) :: rest) →
     vss_installed w = true →
     table_at w inst tn = Some tb →
     vec_dim tb = 384 →
     length q = 384 →
     ∃ res, result (find_closest_word_match inst tn emb w) = inr res).
Proof.
  rewrite find_closest_word_match_result. split.
  - intros res.
    destruct (vss_installed w); [|done].
    destruct emb as [[|[word q] rest]|]; [done| |done].
    destruct (table_at w inst tn) as [tb|]; [|done].
    destruct (negb _); [done|]. destruct (negb _); [done|].
    intros [= <-]. exists tb. split; [done|].
    rewrite length_fmap, select_rows_length. lia.
  - intros tb word q rest -> -> -> -> ->. by eexists.
Qed.


(** *** Connections *)

(** C8, as amended: [create_vector_table] and [insert_words_into_db] close
    the connection they make when they return, and only then: when they
    raise, the connection is left open, for [cursor.close()] is their last
    statement and nothing catches the exception.  No other connection is
    touched. *)
Theorem connection_closed_on_return_only inst tn batch w :
  (∃ c, conns (final_world (create_vector_table inst tn w)) = conns w ++ [c] ∧
        conn_open c = match create_vector_table inst tn w with
                      | Returned _ _ => false
                      | Raised _ _ => true
                      end) ∧
  (∃ c, conns (final_world (insert_words_into_db inst tn batch w))
          = conns w ++ [c] ∧
        conn_open c = match insert_words_into_db inst tn batch w with
                      | Returned _ _ => false
                      | Raised _ _ => true
                      end).
Proof.
  destruct (connect_last_open inst w) as (w0 & Hconnect & Hw0).
  split.
  - unfold create_vector_table. rewrite bind_unfold, Hconnect.
    revert w0 Hw0 Hconnect. intros w0 Hw0 _. revert w0 Hw0.
    apply bind_closes; [apply execute_keeps_last_open|intros _].
    apply bind_closes; [apply execute_keeps_last_open|intros _].
    apply bind_closes; [apply execute_keeps_last_open|intros _].
    apply bind_closes; [apply execute_script_keeps_last_open|intros _].
    apply close_closes.
  - unfold insert_words_into_db. rewrite bind_unfold, Hconnect.
    revert w0 Hw0 Hconnect. intros w0 Hw0 _. revert w0 Hw0.
    apply bind_closes; [apply execute_keeps_last_open|intros _].
    apply bind_closes; [apply execute_keeps_last_open|intros _].
    apply bind_closes; [|intros _; apply close_closes].
    destruct batch as [l|]; [|apply keeps_raise].
    apply keeps_for_each. intros rec.
    apply keeps_bind; [apply keeps_getitem_list|intros word].
    apply keeps_bind; [apply keeps_getitem_dict|intros vec].
    apply keeps_bind; [apply execute_keeps_last_open|intros _].
    apply keeps_ret.
Qed.

End Claims.

(** ** Further properties of the database tasks *)

Section Further.
Context `{F : Floats} `{!Search}.

(** X3: on an existing table, [insert_words_into_db] only appends: however
    it ends, the table holds its former rows followed by the rows of the
    first [k] records of the batch, one row per record (the first key of
    the record with its vector).  It returns exactly when [k] is the whole
    batch, which is exactly when no record is without key or has a vector
    of another length than the column. *)
Theorem insert_words_into_db_appends inst tn w tb batch :
  vss_available w = true →
  table_at w inst tn = Some tb →
  let o := insert_words_into_db inst tn (Some batch) w in
  ∃ k, k ≤ length batch ∧
       table_at (final_world o) inst tn =
         Some (Table (vec_dim tb) (rows tb ++ rows_of (take k batch))) ∧
       length (rows_of (take k batch)) = k ∧
       (result o = inr () ↔ k = length batch) ∧
       (result o = inr () ↔
        Forall (λ rec, record_error (vec_dim tb) rec = None) batch).
Proof.
  intros Hav Htb o. subst o.
  assert (∀ l, Forall (λ rec, record_error (vec_dim tb) rec = None) l →
               length (rows_of l) = length l) as Hlen.
  { unfold rows_of. induction 1 as [|[|[??] ?] l Hrec _ IH]; [done|done|].
    cbn. by rewrite IH. }
  destruct (first_record_error (vec_dim tb) batch)
    as [Hok|(pre & bad & post & e & -> & Hpre & Hbad)].
  - destruct (insert_words_into_db_returns _ _ _ _ _ Hav Htb Hok)
      as (w' & -> & Htb' & _).
    exists (length batch). rewrite firstn_all. cbn [result final_world].
    split; [done|]. split; [done|]. split; [by apply Hlen|]. done.
  - destruct (insert_words_into_db_raises _ _ _ _ post _ _ _ Hav Htb Hpre Hbad)
      as (w' & -> & Htb' & _).
    exists (length pre). rewrite take_app_length. cbn [result final_world].
    split; [rewrite length_app; lia|]. split; [done|].
    split; [by apply Hlen|]. split.
    + split; [done|]. rewrite length_app. cbn. lia.
    + split; [done|]. intros Hall. apply Forall_app in Hall as [_ Hall].
      apply Forall_cons_1 in Hall as [Hall _]. congruence.
Qed.

(** X4: a table that is not there is only noticed by the first [INSERT].
    With an empty batch [insert_words_into_db] returns; with a record to
    insert it raises DuckDB's catalog error.  No database file changes
    either way. *)
Theorem insert_words_into_db_missing_table inst tn w :
  vss_available w = true →
  table_at w inst tn = None →
  (result (insert_words_into_db inst tn (Some []) w) = inr () ∧
   files (final_world (insert_words_into_db inst tn (Some []) w)) = files w) ∧
  (∀ word vec rest batch,
     let o := insert_words_into_db inst tn
                (Some (((word, vec) :: rest) :: batch)) w in
     result o = inl CatalogException ∧ files (final_world o) = files w).
Proof.
  destruct w as [i d fs cs]. unfold vss_available, table_at.
  cbn [vss_installed vss_downloadable].
  intros Hav Hmissing. split.
  - rewrite insert_words_into_db_prelude by done.
    cbn [for_each ret]. by rewrite close_snoc.
  - intros word vec rest batch. cbv zeta.
    rewrite insert_words_into_db_prelude by done.
    cbn [for_each]. rewrite bind_unfold.
    by rewrite (insert_one_missing inst tn true d fs cs false).
Qed.

(** X5: the ways [find_closest_word_match] fails, in the order the task
    meets them: [LOAD vss] without the extension installed (the task does
    not install it), no embedding given, an embedding without key, no
    table, a table of another dimension, a query vector whose length is
    not 384. *)
Theorem find_closest_word_match_errors inst tn emb w :
  (vss_installed w = false →
   result (find_closest_word_match inst tn emb w) = inl IOException) ∧
  (vss_installed w = true →
   (emb = None →
    result (find_closest_word_match inst tn emb w) = inl AttributeError) ∧
   (emb = Some [] →
    result (find_closest_word_match inst tn emb w) = inl IndexError) ∧
   (∀ word q rest, emb = Some ((word, q) :: rest) →
      (table_at w inst tn = None →
       result (find_closest_word_match inst tn emb w) = inl CatalogException) ∧
      (∀ tb, table_at w inst tn = Some tb →
         (vec_dim tb ≠ 384 →
          result (find_closest_word_match inst tn emb w)
            = inl BinderException) ∧
         (vec_dim tb = 384 → length q ≠ 384 →
          result (find_closest_word_match inst tn emb w)
            = inl ConversionException) ∧
         (vec_dim tb = 384 → length q = 384 →
          ∃ res, result (find_closest_word_match inst tn emb w) = inr res)))).
Proof.
  rewrite find_closest_word_match_result. split; [by intros ->|].
  intros ->. split; [by intros ->|]. split; [by intros ->|].
  intros word q rest ->. split; [by intros ->|].
  intros tb ->. split; [|split].
  - intros Hdim. by destruct (Nat.eqb_spec (vec_dim tb) 384).
  - intros -> Hq. cbn. by destruct (Nat.eqb_spec (length q) 384).
  - intros -> ->. by eexists.
Qed.

(** X6: when the [vss] extension can be neither found nor fetched,
    [create_vector_table] and [insert_words_into_db] raise at
    [INSTALL vss], before any statement on a table: no database file
    changes, and a table that was there is not dropped. *)
Theorem tasks_without_vss_change_nothing inst tn batch w :
  vss_available w = false →
  (result (create_vector_table inst tn w) = inl IOException ∧
   files (final_world (create_vector_table inst tn w)) = files w) ∧
  (result (insert_words_into_db inst tn batch w) = inl IOException ∧
   files (final_world (insert_words_into_db inst tn batch w)) = files w).
Proof.
  destruct w as [i d fs cs]. unfold vss_available.
  cbn [vss_installed vss_downloadable]. intros Hav.
  by rewrite create_vector_table_unavailable,
    insert_words_into_db_unavailable.
Qed.

(** X7: [create_vector_table] and [insert_words_into_db] touch no
    database file but the one they connect to, however they end. *)
Theorem tasks_leave_other_files inst tn batch path w :
  path ≠ inst →
  files (final_world (create_vector_table inst tn w)) !! path
    = files w !! path ∧
  files (final_world (insert_words_into_db inst tn batch w)) !! path
    = files w !! path.
Proof.
  intros Hne.
  destruct (connect_working_on inst path w) as (w0 & Hconnect & Hw0).
  pose (J := working_on (conns w) inst path (files w !! path)).
  pose (Q := λ w' : world, files w' !! path = files w !! path).
  assert (∀ w', J w' → Q w') as HJQ by by intros ? [].
  split.
  - unfold create_vector_table. rewrite bind_unfold, Hconnect.
    clear Hconnect. revert w0 Hw0.
    change (leads J Q ?m) with (leads J Q m).
    apply (leads_bind J Q); [by apply execute_keeps_working_on|done|intros _].
    apply (leads_bind J Q); [by apply execute_keeps_working_on|done|intros _].
    apply (leads_bind J Q); [by apply execute_keeps_working_on|done|intros _].
    apply (leads_bind J Q); [by apply execute_script_keeps_working_on|done|intros _].
    apply close_leads_file.
  - unfold insert_words_into_db. rewrite bind_unfold, Hconnect.
    clear Hconnect. revert w0 Hw0.
    change (leads J Q ?m) with (leads J Q m).
    apply (leads_bind J Q); [by apply execute_keeps_working_on|done|intros _].
    apply (leads_bind J Q); [by apply execute_keeps_working_on|done|intros _].
    apply (leads_bind J Q); [|done|intros _; apply close_leads_file].
    destruct batch as [l|]; [|apply keeps_raise].
    apply keeps_for_each. intros rec.
    apply keeps_bind; [apply keeps_getitem_list|intros word].
    apply keeps_bind; [apply keeps_getitem_dict|intros vec].
    apply keeps_bind; [by apply execute_keeps_working_on|intros _].
    apply keeps_ret.
Qed.

(** X8: the three database tasks in the order of the DAG.  In a world of
    the DAG and on a database file, for a batch without fault and an
    embedding of length 384: [create_vector_table],
    [insert_words_into_db] and [find_closest_word_match] all return, and
    the result is the texts of [min 3 n] of the [n] rows of the batch, in
    ascending order of distance; whatever the table held before the run
    does not show.  The table has its HNSW index, so the rows come from
    the search of the index; for a batch of no more than three records
    they are all its rows, hence the nearest. *)
Theorem create_insert_find inst tn batch emb word q rest w :
  dag_world w →
  in_memory inst = false →
  Forall (λ rec, record_error 384 rec = None) batch →
  emb = Some ((word, q) :: rest) →
  length q = 384 →
  ∃ w1 w2 found,
    create_vector_table inst tn w = Returned () w1 ∧
    insert_words_into_db inst "embeddings_table" (Some batch) w1
      = Returned () w2 ∧
    result (find_closest_word_match inst "embeddings_table" emb w2)
      = inr (texts found) ∧
    length found = 3 `min` length batch ∧
    found ⊆+ rows_of batch ∧
    StronglySorted (closer q) found ∧
    (length batch ≤ 3 →
     k_nearest q (3 `min` length batch) (rows_of batch) found).
Proof.
  intros Hw Hmem Hok -> Hq.
  destruct (create_vector_table_returns inst tn w)
    as (w1 & Hrun1 & Htb1 & _ & Hav1);
    [apply Hw|done|by apply dag_world_stored|].
  destruct (insert_words_into_db_returns inst "embeddings_table" batch w1
              (Table 384 []) Hav1 Htb1 Hok)
    as (w2 & Hrun2 & Htb2 & Hvss2 & _).
  cbn [vec_dim rows app] in Htb2.
  set (indexed := has_index (stored w2 inst) "embeddings_table").
  exists w1, w2, (select_rows indexed q 3 (rows_of batch)).
  rewrite <- (rows_of_length 384 batch Hok).
  split; [done|]. split; [done|].
  split; [by rewrite find_closest_word_match_result, Hvss2, Htb2, Hq|].
  split; [apply select_rows_length|].
  split; [apply select_rows_submseteq|].
  split; [apply select_rows_sorted|].
  intros Hle. apply select_rows_nearest. by right.
Qed.

(** X9: every task makes its own connection, and an in-memory database
    lives in its connection.  On [:memory:], [create_vector_table]
    returns and changes no file, the table it made is not there for the
    next task, and [insert_words_into_db] raises the catalog error at its
    first record. *)
Theorem in_memory_table_is_lost tn w :
  vss_available w = true →
  ∃ w1,
    create_vector_table ":memory:" tn w = Returned () w1 ∧
    files w1 = files w ∧
    table_at w1 ":memory:" "embeddings_table" = None ∧
    ∀ word vec rest batch,
      result (insert_words_into_db ":memory:" "embeddings_table"
                (Some (((word, vec) :: rest) :: batch)) w1)
        = inl CatalogException.
Proof.
  destruct w as [i d fs cs]. unfold vss_available.
  cbn [vss_installed vss_downloadable]. intros Hav.
  rewrite create_vector_table_memory by done.
  eexists. split; [done|]. split; [done|]. split; [done|].
  intros word vec rest batch.
  rewrite insert_words_into_db_prelude by done.
  cbn [for_each]. rewrite bind_unfold.
  by rewrite (insert_one_missing ":memory:" "embeddings_table" true d fs _ false).
Qed.

End Further.

(** ** The tasks that prepare the words *)

Section Pipeline.
Context `{F : Floats} `{!Search}.
Variable get_embeddings_one_word : string → exn + dict (list float).

Lemma leaves_world_ret {A} (a : A) : leaves_world (ret a).
Proof. by intros w. Qed.

Lemma leaves_world_raise {A} e : leaves_world (raise (A:=A) e).
Proof. by intros w. Qed.

Lemma leaves_world_bind {A B} (m : task A) (k : A → task B) :
  leaves_world m → (∀ a, leaves_world (k a)) → leaves_world (m ≫= k).
Proof.
  intros Hm Hk w. rewrite bind_unfold. specialize (Hm w).
  destruct (m w) as [a w'|e w']; cbn [final_world] in Hm; subst w'; [apply Hk|done].
Qed.

Lemma leaves_world_call {A} (r : exn + A) : leaves_world (call r).
Proof. destruct r; [apply leaves_world_raise|apply leaves_world_ret]. Qed.

Lemma leaves_world_getitem_dict {V} (d : dict V) k :
  leaves_world (getitem_dict d k).
Proof.
  unfold getitem_dict.
  destruct (dict_get d k); [apply leaves_world_ret|apply leaves_world_raise].
Qed.

Lemma leaves_world_for_each_from {A S} (l : list A) (body : S → A → task S) :
  (∀ s x, leaves_world (body s x)) → ∀ s, leaves_world (for_each_from l body s).
Proof.
  intros Hbody. induction l as [|x l IH]; intros s; [apply leaves_world_ret|].
  apply leaves_world_bind; [apply Hbody|apply IH].
Qed.

Lemma leaves_world_with_retries {A} n (t : task A) :
  leaves_world t → leaves_world (with_retries n t).
Proof.
  intros Ht. induction n as [|n IH]; intros w; cbn [with_retries];
    specialize (Ht w); destruct (t w) as [a w'|e w'];
    cbn [final_world] in Ht; subst w'; [done|done|done|apply IH].
Qed.

Lemma get_words_leaves_world env context :
  leaves_world (get_words env context).
Proof.
  apply leaves_world_bind; [apply leaves_world_getitem_dict|intros params].
  apply leaves_world_bind; [apply leaves_world_getitem_dict|intros words].
  apply leaves_world_ret.
Qed.

Lemma create_embeddings_leaves_world words :
  leaves_world (create_embeddings get_embeddings_one_word words).
Proof.
  apply leaves_world_bind; [|intros; apply leaves_world_ret].
  apply leaves_world_for_each_from. intros acc word.
  apply leaves_world_bind; [apply leaves_world_call|intros; apply leaves_world_ret].
Qed.

Lemma embed_word_leaves_world env context :
  leaves_world (embed_word get_embeddings_one_word env context).
Proof.
  apply leaves_world_bind; [apply leaves_world_getitem_dict|intros params].
  apply leaves_world_bind; [apply leaves_world_getitem_dict|intros [s|l]];
    [|apply leaves_world_raise].
  apply leaves_world_bind; [apply leaves_world_call|intros d].
  apply leaves_world_bind; [apply leaves_world_getitem_dict|intros vec].
  apply leaves_world_ret.
Qed.

(** The loop of [create_embeddings], from the records it has so far. *)
Lemma create_embeddings_loop_returns words recs : ∀ acc w,
  Forall2 (λ word rec, get_embeddings_one_word word = inr rec) words recs →
  for_each_from words
    (λ acc word,
       word_and_embeddings ← call (get_embeddings_one_word word);
       ret (acc ++ [word_and_embeddings])) acc w =
  Returned (acc ++ recs) w.
Proof.
  intros acc w Hall. revert acc.
  induction Hall as [|word rec words recs Hword _ IH]; intros acc.
  - cbn. by rewrite app_nil_r.
  - cbn [for_each_from]. rewrite !bind_unfold, Hword. cbn [call ret].
    rewrite IH. by rewrite <- app_assoc.
Qed.

Lemma create_embeddings_loop_raises pre bad post recs e acc w :
  Forall2 (λ word rec, get_embeddings_one_word word = inr rec) pre recs →
  get_embeddings_one_word bad = inl e →
  for_each_from (pre ++ bad :: post)
    (λ acc word,
       word_and_embeddings ← call (get_embeddings_one_word word);
       ret (acc ++ [word_and_embeddings])) acc w =
  Raised e w.
Proof.
  intros Hall Hbad. revert acc.
  induction Hall as [|word rec words recs Hword _ IH]; intros acc.
  - cbn [app for_each_from]. by rewrite !bind_unfold, Hbad.
  - cbn [app for_each_from]. rewrite !bind_unfold, Hword. cbn [call ret].
    apply IH.
Qed.

(** X10: [create_embeddings] gives one record per word, in the order of
    the words: the dicts [get_embeddings_one_word] returned.  When the
    embedding of a word raises, the task raises the same and the records
    of the words before are lost.  The world is as before either way. *)
Theorem create_embeddings_one_record_per_word words w :
  (∀ recs,
     Forall2 (λ word rec, get_embeddings_one_word word = inr rec)
       (iterate words) recs →
     create_embeddings get_embeddings_one_word words w = Returned recs w ∧
     length recs = length (iterate words)) ∧
  (∀ pre bad post recs e,
     iterate words = pre ++ bad :: post →
     Forall2 (λ word rec, get_embeddings_one_word word = inr rec) pre recs →
     get_embeddings_one_word bad = inl e →
     create_embeddings get_embeddings_one_word words w = Raised e w).
Proof.
  split.
  - intros recs Hall. split; [|symmetry; by eapply Forall2_length].
    unfold create_embeddings. rewrite bind_unfold.
    by rewrite (create_embeddings_loop_returns _ recs).
  - intros pre bad post recs e Hwords Hall Hbad.
    unfold create_embeddings. rewrite bind_unfold, Hwords.
    by rewrite (create_embeddings_loop_raises pre bad post recs e).
Qed.

(** X11: [embed_word] returns exactly when the run has a string under
    the name of the word of interest, the embedding of that word returns
    a dict, and the dict has the word as a key; what it returns is the
    dict of that one word with its vector, so that
    [find_closest_word_match] finds its key and its vector. *)
Theorem embed_word_returns env context emb w w' :
  embed_word get_embeddings_one_word env context w = Returned emb w' ↔
  w' = w ∧
  ∃ params word d vec,
    dict_get context "params" = Some params ∧
    dict_get params (_WORD_OF_INTEREST_PARAMETER_NAME env)
      = Some (Param_string word) ∧
    get_embeddings_one_word word = inr d ∧
    dict_get d word = Some vec ∧
    emb = [(word, vec)].
Proof.
  unfold embed_word, getitem_dict. rewrite bind_unfold.
  destruct (dict_get context "params") as [params|] eqn:Hparams;
    cbn [ret raise].
  2: { split; [done|]. intros (_ & ? & ? & ? & ? & ? & ? & ? & ? & ?). congruence. }
  rewrite bind_unfold.
  destruct (dict_get params _) as [[word|l]|] eqn:Hword; cbn [ret raise].
  2,3: split; [done|];
    intros (_ & ? & ? & ? & ? & ? & ? & ? & ? & ?); congruence.
  rewrite bind_unfold.
  destruct (get_embeddings_one_word word) as [e|d] eqn:Hd; cbn [call raise ret].
  { split; [done|].
    intros (_ & ? & ? & ? & ? & ? & ? & ? & ? & ?). congruence. }
  rewrite bind_unfold.
  destruct (dict_get d word) as [vec|] eqn:Hvec; cbn [ret raise].
  - split.
    + intros [= <- <-]. split; [done|]. by exists params, word, d, vec.
    + intros (-> & ? & ? & ? & ? & ? & ? & ? & ? & ->). unfold ret. congruence.
  - split; [done|].
    intros (_ & ? & ? & ? & ? & ? & ? & ? & ? & ?). congruence.
Qed.

(** *** Runs of the DAG *)

Lemma result_inr {A} (o : outcome A) a :
  result o = inr a → o = Returned a (final_world o).
Proof. destruct o; [by intros [= ->]|done]. Qed.

Lemma with_retries_returned {A} n (t : task A) w a w' :
  t w = Returned a w' → with_retries n t w = Returned a w'.
Proof. intros Ht. destruct n; cbn [with_retries]; by rewrite Ht. Qed.

Lemma with_retries_raises {A} (I : world → Prop) n (t : task A) e :
  (∀ w, I w → ∃ w', t w = Raised e w' ∧ I w') →
  ∀ w, I w → ∃ w', with_retries n t w = Raised e w' ∧ I w'.
Proof.
  intros Ht. induction n as [|n IH]; intros w Hw;
    destruct (Ht w Hw) as (w' & Hrun & Hw'); cbn [with_retries]; rewrite Hrun.
  - by exists w'.
  - by apply IH.
Qed.

Lemma keeps_with_retries {A} I n (t : task A) :
  keeps I t → keeps I (with_retries n t).
Proof.
  intros Ht. induction n as [|n IH]; intros w Hw; cbn [with_retries];
    specialize (Ht w Hw); destruct (t w) as [a w'|e w']; [done|done|done|].
  by apply IH.
Qed.

Lemma run_task_returned {A} n (t : task A) w a w' :
  t w = Returned a w' → run_task n t w = (success a, w').
Proof. intros Ht. unfold run_task. by rewrite (with_retries_returned n t w a w'). Qed.

Lemma get_words_run env context params words w :
  dict_get context "params" = Some params →
  dict_get params (_LIST_OF_WORDS_PARAMETER_NAME env) = Some words →
  get_words env context w = Returned words w.
Proof.
  intros Hparams Hwords. unfold get_words, getitem_dict.
  rewrite bind_unfold, Hparams. cbn [ret]. by rewrite bind_unfold, Hwords.
Qed.

Lemma embed_word_run env context params word d q w :
  dict_get context "params" = Some params →
  dict_get params (_WORD_OF_INTEREST_PARAMETER_NAME env)
    = Some (Param_string word) →
  get_embeddings_one_word word = inr d →
  dict_get d word = Some q →
  embed_word get_embeddings_one_word env context w = Returned [(word, q)] w.
Proof.
  intros Hparams Hword Hd Hq. unfold embed_word, getitem_dict.
  rewrite bind_unfold, Hparams. cbn [ret]. rewrite bind_unfold, Hword.
  cbn [ret]. rewrite bind_unfold, Hd. cbn [call ret]. by rewrite bind_unfold, Hq.
Qed.

Lemma find_closest_word_match_files inst tn emb w :
  files (final_world (find_closest_word_match inst tn emb w)) = files w.
Proof.
  unfold find_closest_word_match, mbind, task_bind, bind, connect, execute.
  simpl. rewrite lookup_snoc. simpl.
  destruct (vss_installed w) eqn:Hi; [|done].
  simpl. rewrite insert_snoc.
  destruct emb as [[|[word vec] rest]|]; simpl; try done.
  unfold getitem_dict. simpl. rewrite String.eqb_refl. simpl.
  rewrite lookup_snoc. simpl.
  destruct (_ !! tn) as [tb|]; [|done].
  destruct (negb (Nat.eqb (vec_dim tb) 384)); [done|].
  by destruct (negb (Nat.eqb (length vec) 384)).
Qed.

(** A run on good inputs, task by task. *)
Lemma dag_run_of_good_inputs env context words batch word q w :
  dag_world w →
  in_memory (_DUCKDB_INSTANCE_NAME env) = false →
  _DUCKDB_TABLE_NAME env = "embeddings_table" →
  good_inputs get_embeddings_one_word env context words batch word q →
  ∃ w',
    example_vector_embeddings get_embeddings_one_word env context w =
    (DagRun (success words) (success batch) (success [(word, q)])
       (success ()) (success ())
       (success (texts (hnsw_index_scan q 3 (rows_of batch)))),
     w') ∧
    dag_world w' ∧
    table_at w' (_DUCKDB_INSTANCE_NAME env) "embeddings_table"
      = Some (Table 384 (rows_of batch)).
Proof.
  intros Hw Hmem Htn ((params & Hparams & Hwords & Hword) & Hrecs & Hok
                      & (d & Hd & Hq) & Hlen).
  unfold example_vector_embeddings. rewrite Htn.
  set (inst := _DUCKDB_INSTANCE_NAME env) in *.
  rewrite (run_task_returned 2 _ w words w)
    by by eapply get_words_run.
  cbn [downstream].
  rewrite (run_task_returned 3 _ w batch w)
    by (unfold create_embeddings; rewrite bind_unfold;
        by rewrite (create_embeddings_loop_returns _ batch)).
  rewrite (run_task_returned 3 _ w [(word, q)] w)
    by by eapply embed_word_run.
  destruct (create_vector_table_returns inst "embeddings_table" w)
    as (w1 & Hrun1 & Htb1 & Hidx1 & Hav1);
    [apply Hw|done|by apply dag_world_stored|].
  pose proof (create_vector_table_keeps_dag_world inst "embeddings_table" w Hw)
    as Hw1. rewrite Hrun1 in Hw1. cbn [final_world] in Hw1.
  rewrite (run_task_returned 3 _ w () w1) by done.
  cbn [downstream].
  pose proof (insert_words_into_db_indexes inst "embeddings_table" batch w1
                (Table 384 []) Hav1 Htb1 Hok) as Hidx2.
  destruct (insert_words_into_db_returns inst "embeddings_table" batch w1
              (Table 384 []) Hav1 Htb1 Hok)
    as (w2 & Hrun2 & Htb2 & Hvss2 & _).
  rewrite Hrun2 in Hidx2. cbn [final_world] in Hidx2.
  rewrite <- Hidx2 in Hidx1. apply has_index_lookup in Hidx1.
  cbn [vec_dim rows app] in Htb2.
  pose proof (insert_words_into_db_keeps_dag_world inst "embeddings_table"
                (Some batch) w1 Hw1) as Hw2.
  rewrite Hrun2 in Hw2. cbn [final_world] in Hw2.
  rewrite (run_task_returned 3 _ w1 () w2) by done.
  cbn [downstream].
  set (find := find_closest_word_match inst "embeddings_table"
                 (Some [(word, q)])).
  assert (result (find w2) = inr (texts (hnsw_index_scan q 3 (rows_of batch))))
    as Hres
    by (unfold find;
        by rewrite find_closest_word_match_result, Hvss2, Htb2, Hlen, Hidx1).
  apply result_inr in Hres.
  rewrite (run_task_returned 3 _ w2 _ _ Hres).
  eexists. split; [done|]. split.
  - apply (find_closest_word_match_keeps_dag_world inst "embeddings_table"
             (Some [(word, q)]) w2 Hw2).
  - unfold table_at, stored in Htb2 |- *.
    unfold find. by rewrite find_closest_word_match_files.
Qed.

(** X12: a run of the DAG on good inputs.  In a world of the DAG, on a
    database file and with the table name left at [embeddings_table],
    every task succeeds, and the run ends with the texts of [min 3 n] of
    the [n] words of the list, in ascending order of their distance from
    the word of interest, whatever the table held before.  They come from
    the search of the HNSW index; for a list of no more than three words
    they are all its words, hence the nearest. *)
Theorem example_vector_embeddings_returns_nearest
    env context words batch word q w :
  dag_world w →
  in_memory (_DUCKDB_INSTANCE_NAME env) = false →
  _DUCKDB_TABLE_NAME env = "embeddings_table" →
  good_inputs get_embeddings_one_word env context words batch word q →
  ∃ found w',
    example_vector_embeddings get_embeddings_one_word env context w =
    (DagRun (success words) (success batch) (success [(word, q)])
       (success ()) (success ()) (success (texts found)), w') ∧
    length found = 3 `min` length (iterate words) ∧
    found ⊆+ rows_of batch ∧
    StronglySorted (closer q) found ∧
    (length (iterate words) ≤ 3 →
     k_nearest q (3 `min` length (iterate words)) (rows_of batch) found).
Proof.
  intros Hw Hmem Htn Hgood.
  destruct (dag_run_of_good_inputs env context words batch word q w)
    as (w' & Hrun & _); [done..|].
  exists (select_rows true q 3 (rows_of batch)), w'.
  split; [done|].
  destruct Hgood as (_ & Hrecs & Hok & _).
  rewrite (Forall2_length _ _ _ Hrecs), <- (rows_of_length 384 batch Hok).
  split; [apply select_rows_length|].
  split; [apply select_rows_submseteq|].
  split; [apply select_rows_sorted|].
  intros Hle. apply select_rows_nearest. by right.
Qed.

(** X13: running the DAG again changes nothing.  On good inputs a second
    run right after the first ends in the same states with the same
    result, and the table holds the rows of the list once, not twice. *)
Theorem example_vector_embeddings_rerun env context words batch word q w :
  dag_world w →
  in_memory (_DUCKDB_INSTANCE_NAME env) = false →
  _DUCKDB_TABLE_NAME env = "embeddings_table" →
  good_inputs get_embeddings_one_word env context words batch word q →
  ∃ run w1 w2,
    example_vector_embeddings get_embeddings_one_word env context w
      = (run, w1) ∧
    example_vector_embeddings get_embeddings_one_word env context w1
      = (run, w2) ∧
    table_at w1 (_DUCKDB_INSTANCE_NAME env) "embeddings_table"
      = Some (Table 384 (rows_of batch)) ∧
    table_at w2 (_DUCKDB_INSTANCE_NAME env) "embeddings_table"
      = Some (Table 384 (rows_of batch)).
Proof.
  intros Hw Hmem Htn Hgood.
  destruct (dag_run_of_good_inputs env context words batch word q w)
    as (w1 & Hrun1 & Hw1 & Htb1); [done..|].
  destruct (dag_run_of_good_inputs env context words batch word q w1)
    as (w2 & Hrun2 & _ & Htb2); [done..|].
  by eexists _, w1, w2.
Qed.

Lemma run_task_raised_pure {A} n (t : task A) e w :
  (∀ w, t w = Raised e w) → run_task n t w = (failed e, w).
Proof.
  intros Ht. unfold run_task.
  destruct (with_retries_raises (λ w', w' = w) n t e) with (w := w)
    as (w' & -> & ->); [|done|done].
  intros ? ->. by exists w.
Qed.

Lemma run_task_leaves_world {A} n (t : task A) w :
  leaves_world t → ∃ st, run_task n t w = (st, w).
Proof.
  intros Ht. pose proof (leaves_world_with_retries n t Ht w) as Hw.
  unfold run_task. destruct (with_retries n t w) as [a w'|e w'];
    cbn [final_world] in Hw; subst w'; by eexists.
Qed.

(** X14: the table is emptied even when the words cannot be embedded.
    [create_vector_table] waits for no other task: when the embedding of
    a word of the list raises, [create_embeddings] fails, the insertion
    and the query do not run, and yet the run leaves [embeddings_table]
    empty, whatever it held before. *)
Theorem failed_embeddings_still_empty_the_table
    env context params words pre bad post recs e w :
  dag_world w →
  in_memory (_DUCKDB_INSTANCE_NAME env) = false →
  dict_get context "params" = Some params →
  dict_get params (_LIST_OF_WORDS_PARAMETER_NAME env) = Some words →
  iterate words = pre ++ bad :: post →
  Forall2 (λ w rec, get_embeddings_one_word w = inr rec) pre recs →
  get_embeddings_one_word bad = inl e →
  ∃ embed_word_obj w',
    example_vector_embeddings get_embeddings_one_word env context w =
    (DagRun (success words) (failed e) embed_word_obj (success ())
       upstream_failed upstream_failed, w') ∧
    table_at w' (_DUCKDB_INSTANCE_NAME env) "embeddings_table"
      = Some (Table 384 []).
Proof.
  intros Hw Hmem Hparams Hwords Hiter Hrecs Hbad.
  unfold example_vector_embeddings.
  set (inst := _DUCKDB_INSTANCE_NAME env) in *.
  rewrite (run_task_returned 2 _ w words w)
    by by eapply get_words_run.
  cbn [downstream].
  rewrite (run_task_raised_pure 3 _ e w).
  2: { intros w0. unfold create_embeddings. rewrite bind_unfold, Hiter.
       by rewrite (create_embeddings_loop_raises pre bad post recs e). }
  destruct (run_task_leaves_world 3 _ w (embed_word_leaves_world env context))
    as (embed_word_obj & ->).
  destruct (create_vector_table_returns inst (_DUCKDB_TABLE_NAME env) w)
    as (w1 & Hrun1 & Htb1 & _);
    [apply Hw|done|by apply dag_world_stored|].
  rewrite (run_task_returned 3 _ w () w1) by done.
  cbn [downstream]. by exists embed_word_obj, w1.
Qed.

(** X16: retries repeat what a failed insertion had done.  A batch whose
    first faulty record comes after [k] good ones fails on every try, and
    every try inserts the [k] rows again: after the [retries + 1] tries
    the table holds them [retries + 1] times (four times with the three
    retries of the DAG). *)
Theorem insert_words_into_db_retries_repeat_rows
    retries inst tn pre bad post e : ∀ w tb,
  vss_available w = true →
  table_at w inst tn = Some tb →
  Forall (λ rec, record_error (vec_dim tb) rec = None) pre →
  record_error (vec_dim tb) bad = Some e →
  ∃ w',
    with_retries retries
      (insert_words_into_db inst tn (Some (pre ++ bad :: post))) w
      = Raised e w' ∧
    table_at w' inst tn =
      Some (Table (vec_dim tb)
              (rows tb ++ concat (replicate (S retries) (rows_of pre)))).
Proof.
  induction retries as [|n IH]; intros w tb Hav Htb Hpre Hbad;
    destruct (insert_words_into_db_raises _ _ _ _ post _ _ _ Hav Htb Hpre Hbad)
      as (w1 & Hrun1 & Htb1 & Hvss1 & _);
    cbn [with_retries]; rewrite Hrun1.
  - exists w1. split; [done|]. cbn. by rewrite app_nil_r.
  - destruct (IH w1 (Table (vec_dim tb) (rows tb ++ rows_of pre)))
      as (w' & Hrun & Htb'); [|done|done|done|].
    { unfold vss_available. by rewrite Hvss1. }
    exists w'. split; [done|]. rewrite Htb'. cbn [vec_dim rows].
    by rewrite <- app_assoc.
Qed.

End Pipeline.

(** ** The claims on a concrete machine

    The machine computes with the integers of [Exact] and answers every
    query by the sort: a scan that keeps rows at the same distance in
    table order, and an index that misses no row. *)

Import Exact.

#[global] Instance exact_machine_search : Search := exact_search.

(** C1: the theorem at "sun", "rocket" and "planet", queried with the
    vector of "sun": the table has its index and three rows, which are all
    returned, nearest first. *)
Lemma find_closest_word_match_three_nearest_witness :
  let rs : list row := take 3 sun_rocket_planet_light in
  ∃ found,
    result (find_closest_word_match astronomy_db "embeddings_table" (Some star)
              (machine rs)) = inr (texts found) ∧
    length found = 3 ∧
    found ⊆+ rs ∧
    StronglySorted (closer (padded [10; 0; 0]%Z)) found ∧
    k_nearest (padded [10; 0; 0]%Z) 3 rs found.
Proof.
  cbv zeta.
  destruct (find_closest_word_match_three_nearest astronomy_db
              "embeddings_table" (machine (take 3 sun_rocket_planet_light))
              (Table 384 (take 3 sun_rocket_planet_light)) "star"
              (padded [10; 0; 0]%Z) [])
    as (found & Hres & Hlen & Hrows & Hsorted & Hnearest);
    [reflexivity..|].
  exists found. split; [exact Hres|]. split; [exact Hlen|].
  split; [exact Hrows|]. split; [exact Hsorted|].
  apply Hnearest. right. cbn. lia.
Defined.

(** What the laws of the index leave open: on the four words, which have
    their index, a search that misses "light" answers with "rocket",
    which is not among the three nearest. *)
Lemma index_search_may_miss :
  result (find_closest_word_match (H := first_rows_search) astronomy_db
            "embeddings_table" (Some star) (machine sun_rocket_planet_light))
    = inr [[VText "sun"]; [VText "planet"]; [VText "rocket"]] ∧
  result (find_closest_word_match (H := exact_search) astronomy_db
            "embeddings_table" (Some star) (machine sun_rocket_planet_light))
    = inr [[VText "sun"]; [VText "planet"]; [VText "light"]].
Proof. split; vm_compute; reflexivity. Qed.

(** C1 as stated fails: the table holds [n = 2] rows and [k = 1 <= n], yet
    the task returns two entries, not the single nearest one (entries read
    as their texts). *)
Lemma find_closest_word_match_not_k_nearest :
  let rs : list row := rows_of [sun; rocket] in
  1 ≤ length rs ∧
  result (find_closest_word_match astronomy_db "embeddings_table" (Some star)
            (machine rs)) = inr [[VText "sun"]; [VText "rocket"]] ∧
  ¬ ∃ nearest,
      result (find_closest_word_match astronomy_db "embeddings_table"
                (Some star) (machine rs)) = inr (texts nearest) ∧
      k_nearest (padded [10; 0; 0]%Z) 1 rs nearest.
Proof.
  cbv zeta. split; [cbn; repeat constructor|].
  assert (result (find_closest_word_match astronomy_db "embeddings_table"
            (Some star) (machine (rows_of [sun; rocket])))
          = inr [[VText "sun"]; [VText "rocket"]]) as Hres
    by (vm_compute; reflexivity).
  split; [exact Hres|].
  intros (nearest & Hnearest & Hk & _). rewrite Hres in Hnearest.
  injection Hnearest as Hnearest. apply (f_equal length) in Hnearest.
  unfold texts in Hnearest. rewrite length_fmap in Hnearest.
  cbn in Hnearest. discriminate (eq_trans Hnearest Hk).
Qed.

(** C2 as stated fails: the batch of "rocket" and the short record fails
    with the conversion error at its second record, and the table, which
    held the row of "sun", holds the row of "rocket" as well after the
    failed call. *)
Lemma insert_words_into_db_failure_changes_table :
  let w := machine (rows_of [sun]) in
  let o := insert_words_into_db astronomy_db "embeddings_table"
             (Some [rocket; short]) w in
  length [1; 2; 3]%Z ≠ 384 ∧
  result o = inl ConversionException ∧
  table_at w astronomy_db "embeddings_table" =
    Some (Table 384 (rows_of [sun])) ∧
  table_at (final_world o) astronomy_db "embeddings_table" =
    Some (Table 384 (rows_of [sun; rocket])) ∧
  table_at (final_world o) astronomy_db "embeddings_table" ≠
    table_at w astronomy_db "embeddings_table".
Proof.
  cbv zeta. split; [cbn; lia|].
  split; [vm_compute; reflexivity|]. split; [reflexivity|].
  assert (table_at
            (final_world
               (insert_words_into_db astronomy_db "embeddings_table"
                  (Some [rocket; short]) (machine (rows_of [sun]))))
            astronomy_db "embeddings_table"
          = Some (Table 384 (rows_of [sun; rocket]))) as Htable
    by (vm_compute; reflexivity).
  split; [exact Htable|].
  rewrite Htable. intros Heq. injection Heq as Heq.
  apply (f_equal length) in Heq. discriminate Heq.
Qed.

(** C2: the amended claim at a batch of "sun" and a record with a vector
    of three components, on the table of the four words. *)
Lemma insert_words_into_db_dimension_witness :
  let o := insert_words_into_db astronomy_db "embeddings_table"
             (Some [sun; short]) (machine sun_rocket_planet_light) in
  result o = inl ConversionException ∧
  table_at (final_world o) astronomy_db "embeddings_table" =
    Some (Table 384 (sun_rocket_planet_light ++ rows_of [sun])).
Proof.
  cbv zeta.
  destruct (insert_words_into_db_dimension astronomy_db "embeddings_table"
              (machine sun_rocket_planet_light)
              (Table 384 sun_rocket_planet_light) [sun; short])
    as (_ & _ & Hfail);
    [reflexivity|reflexivity|reflexivity|repeat constructor|].
  destruct (Hfail [sun] "short" [1; 2; 3]%Z [] []) as (Hexn & _ & Htable);
    [reflexivity|repeat constructor|cbn; lia|].
  split; [exact Hexn|exact Htable].
Defined.

(** C3 as stated fails: the batch of "sun" and the short record fails at
    its second record, and the row of "sun" is in the table afterwards. *)
Lemma insert_words_into_db_not_atomic :
  ∃ w', insert_words_into_db astronomy_db "embeddings_table"
          (Some [sun; short]) (machine []) = Raised ConversionException w' ∧
        table_at (machine []) astronomy_db "embeddings_table" =
          Some (Table 384 []) ∧
        table_at w' astronomy_db "embeddings_table" =
          Some (Table 384 (rows_of [sun])).
Proof. eexists. split; [vm_compute; reflexivity|]. split; reflexivity. Qed.

(** C3: the amended claim at that batch. *)
Lemma insert_words_into_db_keeps_rows_before_failure_witness :
  ∃ w', insert_words_into_db astronomy_db "embeddings_table"
          (Some ([sun] ++ short :: [rocket])) (machine []) =
          Raised ConversionException w' ∧
        table_at w' astronomy_db "embeddings_table" =
          Some (Table 384 ([] ++ rows_of [sun])).
Proof.
  apply (insert_words_into_db_keeps_rows_before_failure
           astronomy_db "embeddings_table" (machine []) (Table 384 [])
           [sun] short [rocket] ConversionException);
    [reflexivity|reflexivity|repeat constructor|reflexivity].
Defined.

(** C4: twice on the machine that holds the four words. *)
Lemma create_vector_table_twice_witness :
  ∃ w1 w2,
    create_vector_table astronomy_db "embeddings_table"
      (machine sun_rocket_planet_light) = Returned () w1 ∧
    table_at w1 astronomy_db "embeddings_table" = Some (Table 384 []) ∧
    indexes (stored w1 astronomy_db) !! "my_hnsw_index"
      = Some "embeddings_table" ∧
    create_vector_table astronomy_db "embeddings_table" w1 = Returned () w2 ∧
    table_at w2 astronomy_db "embeddings_table" = Some (Table 384 []) ∧
    indexes (stored w2 astronomy_db) !! "my_hnsw_index"
      = Some "embeddings_table".
Proof.
  apply (create_vector_table_twice astronomy_db "embeddings_table"
           "embeddings_table" (machine sun_rocket_planet_light));
    [reflexivity|reflexivity|].
  intros t Ht. vm_compute in Ht. by injection Ht.
Defined.

(** C5 as stated fails: the entries returned for the four words are rows of
    one column; none is a pair of a text and a distance. *)
Lemma find_closest_word_match_returns_no_distance :
  ∃ res,
    result (find_closest_word_match astronomy_db "embeddings_table" (Some star)
              (machine sun_rocket_planet_light)) = inr res ∧
    res = [[VText "sun"]; [VText "planet"]; [VText "light"]] ∧
    ¬ Forall (λ entry, ∃ t d, entry = [VText t; VDistance d]) res.
Proof.
  eexists. split; [vm_compute; reflexivity|]. split; [reflexivity|].
  intros Hpairs. apply Forall_cons_1 in Hpairs as [(t & d & Hpair) _].
  discriminate Hpair.
Qed.

(** C5: the amended claim at the four words. *)
Lemma find_closest_word_match_returns_texts_witness :
  let res := [[VText "sun"]; [VText "planet"]; [VText "light"]] in
  length res ≤ 3 ∧
  ∃ tb, table_at (machine sun_rocket_planet_light) astronomy_db
          "embeddings_table" = Some tb ∧
        Forall (λ entry, ∃ r, r ∈ rows tb ∧ entry = [VText r.1]) res.
Proof.
  apply (find_closest_word_match_returns_texts astronomy_db "embeddings_table"
           (Some star) (machine sun_rocket_planet_light)).
  vm_compute. reflexivity.
Defined.



(** C7: the query for "star" on the machine whose table is empty. *)
Lemma find_closest_word_match_empty_table_witness :
  result (find_closest_word_match astronomy_db "embeddings_table" (Some star)
            (machine [])) = inr [].
Proof.
  apply (find_closest_word_match_empty_table astronomy_db "embeddings_table"
           (machine []) "star" (padded [10; 0; 0]%Z) []);
    reflexivity.
Defined.

(** C8 as stated fails: the insertion of the short record raises, and the
    connection the task made is open afterwards. *)
Lemma insert_words_into_db_leaves_connection_open :
  ∃ w' c,
    insert_words_into_db astronomy_db "embeddings_table" (Some [short])
      (machine []) = Raised ConversionException w' ∧
    conns (machine []) = [] ∧
    conns w' = [c] ∧
    conn_open c = true.
Proof.
  do 2 eexists. split; [vm_compute; reflexivity|]. by repeat split.
Qed.

(** C9: the task given the name [my_table], on a machine without
    [my_table]. *)
Lemma create_vector_table_ignores_table_name_witness :
  (∀ tn', create_vector_table astronomy_db tn' (machine sun_rocket_planet_light)
          = create_vector_table astronomy_db "my_table"
              (machine sun_rocket_planet_light)) ∧
  table_at (final_world (create_vector_table astronomy_db "my_table"
                           (machine sun_rocket_planet_light)))
    astronomy_db "embeddings_table" = Some (Table 384 []) ∧
  table_at (final_world (create_vector_table astronomy_db "my_table"
                           (machine sun_rocket_planet_light)))
    astronomy_db "my_table" = None.
Proof.
  destruct (create_vector_table_ignores_table_name astronomy_db "my_table"
              (machine sun_rocket_planet_light)) as (Hsame & Hcreated & Hother);
    [reflexivity|reflexivity|].
  split; [exact Hsame|]. split; [exact Hcreated|].
  by rewrite Hother.
Defined.

(** C10: three of the four words are returned. *)
Lemma find_closest_word_match_count_witness :
  ∃ res,
    result (find_closest_word_match astronomy_db "embeddings_table" (Some star)
              (machine sun_rocket_planet_light)) = inr res ∧
    length res = 3.
Proof.
  destruct (find_closest_word_match_count astronomy_db "embeddings_table"
              (Some star) (machine sun_rocket_planet_light))
    as (Hcount & Hreturns).
  destruct (Hreturns (Table 384 sun_rocket_planet_light) "star"
              (padded [10; 0; 0]%Z) [])
    as (res & Hres); [reflexivity..|].
  exists res. split; [exact Hres|].
  destruct (Hcount res Hres) as (tb & Htb & Hlen & _).
  injection Htb as <-. exact Hlen.
Defined.

(** X2: the machine of the four words is a world of the DAG, and
    [create_vector_table] returns on it. *)
Lemma create_vector_table_in_dag_world_witness :
  ∃ w', create_vector_table astronomy_db "embeddings_table"
          (machine sun_rocket_planet_light) = Returned () w' ∧
        dag_world w' ∧
        table_at w' astronomy_db "embeddings_table" = Some (Table 384 []).
Proof.
  apply (create_vector_table_in_dag_world astronomy_db "embeddings_table"
           (machine sun_rocket_planet_light)); [|reflexivity].
  split; [reflexivity|]. split; [|constructor].
  apply map_Forall_singleton. intros t Ht. vm_compute in Ht. by injection Ht.
Defined.

(** ** The further properties on the concrete machine *)

Lemma machine_dag_world rs : dag_world (machine rs).
Proof.
  split; [reflexivity|]. split; [|constructor].
  apply map_Forall_singleton. intros t Ht. vm_compute in Ht. by injection Ht.
Qed.

Lemma default_inputs :
  good_inputs embed ∅ default_context (Param_array _LIST_OF_WORDS_DEFAULT)
    default_batch "star" (padded [10; 0; 0]%Z).
Proof.
  split; [by eexists|]. split; [by repeat constructor|].
  split; [by repeat constructor|]. split; [by eexists|done].
Qed.

(** X3: "sun", then the short record, then "rocket", on the four words:
    one row is appended and the task raises. *)
Lemma insert_words_into_db_appends_witness :
  let o := insert_words_into_db astronomy_db "embeddings_table"
             (Some [sun; short; rocket]) (machine sun_rocket_planet_light) in
  ∃ k, k ≤ 3 ∧
       table_at (final_world o) astronomy_db "embeddings_table" =
         Some (Table 384
                 (sun_rocket_planet_light ++ rows_of (take k [sun; short; rocket]))) ∧
       length (rows_of (take k [sun; short; rocket])) = k ∧
       (result o = inr () ↔ k = 3) ∧
       (result o = inr () ↔
        Forall (λ rec, record_error 384 rec = None) [sun; short; rocket]).
Proof.
  apply (insert_words_into_db_appends astronomy_db "embeddings_table"
           (machine sun_rocket_planet_light)
           (Table 384 sun_rocket_planet_light) [sun; short; rocket]);
    reflexivity.
Defined.

(** X4: the table [words] is not in the database. *)
Lemma insert_words_into_db_missing_table_witness :
  result (insert_words_into_db astronomy_db "words" (Some []) (machine []))
    = inr () ∧
  result (insert_words_into_db astronomy_db "words" (Some [sun; rocket])
            (machine [])) = inl CatalogException.
Proof.
  destruct (insert_words_into_db_missing_table astronomy_db "words" (machine []))
    as ((Hempty & _) & Hfirst); [reflexivity|reflexivity|].
  split; [exact Hempty|].
  exact (proj1 (Hfirst "sun" (padded [10; 0; 0]%Z) [] [rocket])).
Defined.

(** X6: a machine without the extension and without a way to fetch it. *)
Lemma tasks_without_vss_change_nothing_witness :
  let w := World false false (files (machine sun_rocket_planet_light)) [] in
  (result (create_vector_table astronomy_db "embeddings_table" w)
     = inl IOException ∧
   files (final_world (create_vector_table astronomy_db "embeddings_table" w))
     = files w) ∧
  (result (insert_words_into_db astronomy_db "embeddings_table" (Some [sun]) w)
     = inl IOException ∧
   files (final_world
            (insert_words_into_db astronomy_db "embeddings_table" (Some [sun]) w))
     = files w).
Proof.
  apply (tasks_without_vss_change_nothing astronomy_db "embeddings_table"
           (Some [sun])
           (World false false (files (machine sun_rocket_planet_light)) [])).
  reflexivity.
Defined.

(** X7: another database file beside the one of the DAG. *)
Lemma tasks_leave_other_files_witness :
  let w := World true true
             (<["other.db" := empty_database]>
                (files (machine sun_rocket_planet_light))) [] in
  files (final_world (create_vector_table astronomy_db "embeddings_table" w))
    !! "other.db" = Some empty_database ∧
  files (final_world
           (insert_words_into_db astronomy_db "embeddings_table" (Some [sun]) w))
    !! "other.db" = Some empty_database.
Proof.
  cbv zeta.
  destruct (tasks_leave_other_files astronomy_db "embeddings_table" (Some [sun])
              "other.db"
              (World true true
                 (<["other.db" := empty_database]>
                    (files (machine sun_rocket_planet_light))) []))
    as [Hcreate Hinsert]; [done|].
  split; [by rewrite Hcreate|by rewrite Hinsert].
Defined.

(** X8: the table of the four words is replaced by "sun" and "rocket". *)
Lemma create_insert_find_witness :
  ∃ w1 w2 found,
    create_vector_table astronomy_db "embeddings_table"
      (machine sun_rocket_planet_light) = Returned () w1 ∧
    insert_words_into_db astronomy_db "embeddings_table" (Some [sun; rocket]) w1
      = Returned () w2 ∧
    result (find_closest_word_match astronomy_db "embeddings_table"
              (Some star) w2) = inr (texts found) ∧
    length found = 2 ∧
    found ⊆+ rows_of [sun; rocket] ∧
    StronglySorted (closer (padded [10; 0; 0]%Z)) found ∧
    k_nearest (padded [10; 0; 0]%Z) 2 (rows_of [sun; rocket]) found.
Proof.
  destruct (create_insert_find astronomy_db "embeddings_table" [sun; rocket]
              (Some star) "star" (padded [10; 0; 0]%Z) []
              (machine sun_rocket_planet_light))
    as (w1 & w2 & found & Hrun1 & Hrun2 & Hres & Hlen & Hrows & Hsorted
        & Hnearest);
    [apply machine_dag_world|reflexivity|by repeat constructor
    |reflexivity|reflexivity|].
  exists w1, w2, found. split; [exact Hrun1|]. split; [exact Hrun2|].
  split; [exact Hres|]. split; [exact Hlen|]. split; [exact Hrows|].
  split; [exact Hsorted|]. apply Hnearest. cbn. lia.
Defined.

(** X9: on the machine of the four words. *)
Lemma in_memory_table_is_lost_witness :
  ∃ w1,
    create_vector_table ":memory:" "embeddings_table"
      (machine sun_rocket_planet_light) = Returned () w1 ∧
    files w1 = files (machine sun_rocket_planet_light) ∧
    result (insert_words_into_db ":memory:" "embeddings_table"
              (Some [sun]) w1) = inl CatalogException.
Proof.
  destruct (in_memory_table_is_lost "embeddings_table"
              (machine sun_rocket_planet_light))
    as (w1 & Hrun & Hfiles & _ & Hinsert); [reflexivity|].
  exists w1. split; [exact Hrun|]. split; [exact Hfiles|].
  exact (Hinsert "sun" (padded [10; 0; 0]%Z) [] []).
Defined.

(** X12: the default words and "star" on a machine that held the four
    words. *)
Lemma example_vector_embeddings_returns_nearest_witness :
  ∃ found w',
    example_vector_embeddings embed ∅ default_context
      (machine sun_rocket_planet_light) =
    (DagRun (success (Param_array _LIST_OF_WORDS_DEFAULT))
       (success default_batch) (success star)
       (success ()) (success ()) (success (texts found)), w') ∧
    length found = 3 ∧
    found ⊆+ rows_of default_batch ∧
    StronglySorted (closer (padded [10; 0; 0]%Z)) found.
Proof.
  destruct (example_vector_embeddings_returns_nearest embed ∅ default_context
              (Param_array _LIST_OF_WORDS_DEFAULT) default_batch "star"
              (padded [10; 0; 0]%Z) (machine sun_rocket_planet_light))
    as (found & w' & Hrun & Hlen & Hrows & Hsorted & _);
    [apply machine_dag_world|reflexivity|reflexivity|apply default_inputs|].
  exists found, w'. split; [exact Hrun|]. split; [exact Hlen|].
  split; [exact Hrows|exact Hsorted].
Defined.

(** X13: two runs with the default words. *)
Lemma example_vector_embeddings_rerun_witness :
  ∃ run w1 w2,
    example_vector_embeddings embed ∅ default_context (machine []) = (run, w1) ∧
    example_vector_embeddings embed ∅ default_context w1 = (run, w2) ∧
    table_at w1 astronomy_db "embeddings_table"
      = Some (Table 384 (rows_of default_batch)) ∧
    table_at w2 astronomy_db "embeddings_table"
      = Some (Table 384 (rows_of default_batch)).
Proof.
  refine (example_vector_embeddings_rerun embed ∅ default_context
            (Param_array _LIST_OF_WORDS_DEFAULT) default_batch "star"
            (padded [10; 0; 0]%Z) (machine []) _ _ _ _);
    [apply machine_dag_world|reflexivity|reflexivity|apply default_inputs].
Defined.

(** X14: "moon" has no embedding. *)
Lemma failed_embeddings_still_empty_the_table_witness :
  ∃ embed_word_obj w',
    example_vector_embeddings embed ∅ moon_context
      (machine sun_rocket_planet_light) =
    (DagRun (success (Param_array ["sun"; "moon"; "rocket"]))
       (failed IOException) embed_word_obj (success ())
       upstream_failed upstream_failed, w') ∧
    table_at w' astronomy_db "embeddings_table" = Some (Table 384 []).
Proof.
  refine (failed_embeddings_still_empty_the_table embed ∅ moon_context
            [ ("my_word_of_interest", Param_string "star");
              ("my_list_of_words", Param_array ["sun"; "moon"; "rocket"]) ]
            (Param_array ["sun"; "moon"; "rocket"])
            ["sun"] "moon" ["rocket"] [sun] IOException
            (machine sun_rocket_planet_light) _ _ _ _ _ _ _);
    [apply machine_dag_world|reflexivity|reflexivity|reflexivity|reflexivity
    |by repeat constructor|reflexivity].
Defined.

(** X16: "sun" before the short record, with the three retries of the
    DAG: four rows of "sun". *)
Lemma insert_words_into_db_retries_repeat_rows_witness :
  ∃ w',
    with_retries 3
      (insert_words_into_db astronomy_db "embeddings_table"
         (Some ([sun] ++ short :: [rocket]))) (machine [])
      = Raised ConversionException w' ∧
    table_at w' astronomy_db "embeddings_table" =
      Some (Table 384 ([] ++ concat (replicate 4 (rows_of [sun])))).
Proof.
  apply (insert_words_into_db_retries_repeat_rows 3 astronomy_db
           "embeddings_table" [sun] short [rocket] ConversionException
           (machine []) (Table 384 []));
    [reflexivity|reflexivity|by repeat constructor|reflexivity].
Defined.
